(** * Retrieval core of [backend/agents.py]

    A shallow embedding of the class [CompetitiveProgrammingSearch]: the
    builder [_create_weighted_embeddings], the ranker
    [fetch_related_approaches] and the facade [find_similar_approaches].

    Conventions of the embedding.
    - A graph node, as [Result.data()] hands it over, is a Python dict of
      its properties: a finite map from property names to strings.
    - An entry of one of the collected lists is [None] or a node.
    - Floating point scalars are an abstract type [R] with the operations
      the code uses ([+], [*], [<]); the order laws are stated as section
      hypotheses only where a proof needs them.  An embedding is a vector
      of the encoder's fixed width [dim].
    - The two collaborators, the graph session and the sentence encoder,
      are section variables that return a value or raise.
    - Methods run in a state-and-exception monad over the instance
      attribute [self.approach_embeddings] and three logs of what reached
      the outside world. *)

From Stdlib Require Import ZArith List Permutation.
From stdpp Require Import base list sorting strings gmap vector.
From Stdlib Require Import PrimFloat.

Local Open Scope string_scope.
Local Open Scope Z_scope.
Local Open Scope list_scope.

(** ** Python values *)

(** A node's property dict. *)
Abbreviation node := (gmap string string).

(** The exceptions that can travel through the class.  [KeyError] is what
    a dict subscript raises; the other two are the failures of the graph
    session and of the encoder. *)
Inductive exn : Type :=
| KeyError (key : string)
| StoreUnavailable (msg : string)
| EmbeddingFailure (msg : string).

(** Truth value of a dict: non-empty. *)
Definition dict_truthy (d : node) : bool := negb (bool_decide (d = ∅)).

(** Truth value of a list entry that is [None] or a dict. *)
Definition truthy (o : option node) : bool :=
  match o with
  | Some d => dict_truthy d
  | None => false
  end.

(** Truth value of a str: non-empty. *)
Definition str_truthy (s : string) : bool :=
  match s with
  | EmptyString => false
  | String _ _ => true
  end.

(** [sep.join(parts)]. *)
Definition join (sep : string) (parts : list string) : string :=
  String.concat sep parts.

(** [d[key]]. *)
Definition getitem (d : node) (key : string) : exn + string :=
  match d !! key with
  | Some v => inr v
  | None => inl (KeyError key)
  end.

(** [approach_text], as lines 181-184 (and their two copies) compute it
    from the loop variables [approach] and [code]. *)
Definition approach_text (approach : node) (code : option node) : exn + string :=
  match getitem approach "description" with
  | inl e => inl e
  | inr description =>
      let approach_components :=
        if truthy code then
          match code with
          | Some c =>
              match getitem c "content" with
              | inl e => inl e
              | inr content => inr [description; content]
              end
          | None => inr [description]
          end
        else inr [description] in
      match approach_components with
      | inl e => inl e
      | inr components => inr (join " " (List.filter str_truthy components))
      end
  end.

(** [l[:k]] for a Python int [k]: a negative stop counts from the end and
    is clamped at zero. *)
Definition slice_to {A : Type} (l : list A) (k : Z) : list A :=
  if k <? 0
  then take (Z.to_nat (Z.max 0 (Z.of_nat (length l) + k))) l
  else take (Z.to_nat k) l.

(** An approach the inner loops act on: a truthy entry of one of the
    three approach lists that has an entry of the code list zipped to
    it, with the question node of its bundle and the loop's type. *)
Record entry : Type := {
  of_question : node;
  of_type : string;
  of_approach : node;
  of_code : option node
}.

(** One row of [session.run(...).data()]: the columns of the RETURN
    clause of the Cypher query. *)
Record question_bundle : Type := {
  q : node;
  testCases : list (option node);
  optimizedApproaches : list (option node);
  approachedApproaches : list (option node);
  constraints : list (option node);
  improvedApproaches : list (option node);
  optimizedCodes : list (option node);
  approachedCodes : list (option node);
  improvedCodes : list (option node)
}.




Section Search.

(** Scalars of the embedding space and the encoder's output width. *)
Context {R : Type} {dim : nat}.
Variable rzero : R.
Variables radd rmul : R → R → R.
Variable rltb : R → R → bool.

(** [session.run(cypher_query, subtopics=...).data()] inside
    [with self.driver.session()]. *)
Variable session_run : list string → exn + list question_bundle.

(** [self.model.encode([text])[0]]. *)
Variable encode : string → exn + vec R dim.

(** An element of [self.approach_embeddings]. *)
Record embedding_record : Type := {
  question_id : string;
  approach_type : string;
  embedding : vec R dim;
  approach_node : node;
  code_node : option node
}.

(** An element of [relevant_approaches]. *)
Record scored_approach : Type := {
  approach_data : embedding_record;
  similarity : R
}.

(** An element of the list [find_similar_approaches] returns. *)
Record ranked_result : Type := {
  r_question_id : string;
  r_approach_node : node;
  r_code_node : option node;
  similarity_score : R
}.

(** The instance attribute the methods write, and what has reached the
    collaborators and the console so far (oldest first). *)
Record search_state : Type := {
  approach_embeddings : list embedding_record;
  encode_log : list string;
  run_log : list (list string);
  stdout : list (list string)
}.

(** ** The monad of method bodies *)

Definition M (A : Type) : Type := search_state → (exn + A) * search_state.

Definition ret {A : Type} (a : A) : M A := λ s, (inr a, s).

Definition raise {A : Type} (e : exn) : M A := λ s, (inl e, s).

Definition bind {A B : Type} (m : M A) (f : A → M B) : M B :=
  λ s, match m s with
       | (inr a, s') => f a s'
       | (inl e, s') => (inl e, s')
       end.

Notation "'let*' x := m 'in' k" := (bind m (λ x, k))
  (at level 10, x name, m at level 100, k at level 200).
Notation "m ;; k" := (bind m (λ _, k))
  (at level 100, right associativity).

Definition gets {A : Type} (f : search_state → A) : M A := λ s, (inr (f s), s).

(** [for x in l: body(x)]. *)
Fixpoint for_each {A : Type} (body : A → M unit) (l : list A) : M unit :=
  match l with
  | [] => ret tt
  | x :: l' => body x ;; for_each body l'
  end.

(** A step that cannot touch the state: it returns or raises. *)
Definition lift {A : Type} (r : exn + A) : M A := λ s, (r, s).

(** [self.approach_embeddings = records]. *)
Definition set_approach_embeddings (records : list embedding_record) : M unit :=
  λ s, (inr tt, {| approach_embeddings := records;
                   encode_log := encode_log s;
                   run_log := run_log s;
                   stdout := stdout s |}).

(** [self.approach_embeddings.append(record)]. *)
Definition append_record (record : embedding_record) : M unit :=
  λ s, (inr tt, {| approach_embeddings := approach_embeddings s ++ [record];
                   encode_log := encode_log s;
                   run_log := run_log s;
                   stdout := stdout s |}).

(** [self.model.encode([text])[0]]: the call is logged, then it returns
    or raises. *)
Definition model_encode (text : string) : M (vec R dim) :=
  λ s, (encode text, {| approach_embeddings := approach_embeddings s;
                        encode_log := encode_log s ++ [text];
                        run_log := run_log s;
                        stdout := stdout s |}).

(** [print(f"No questions found for subtopics: {subtopics}")]. *)
Definition print_no_questions (subtopics : list string) : M unit :=
  λ s, (inr tt, {| approach_embeddings := approach_embeddings s;
                   encode_log := encode_log s;
                   run_log := run_log s;
                   stdout := stdout s ++ [subtopics] |}).

(** ** [_fetch_questions_by_subtopics] *)

Definition _fetch_questions_by_subtopics (subtopics : list string)
  : M (list question_bundle) :=
  λ s, (session_run subtopics,
        {| approach_embeddings := approach_embeddings s;
           encode_log := encode_log s;
           run_log := run_log s ++ [subtopics];
           stdout := stdout s |}).

(** ** [_create_weighted_embeddings] *)

(** The body of each of the three inner loops; they differ only in the
    literal stored under ['approach_type']. *)
Definition embed_pair (type : string) (q_data : question_bundle)
    (pair : option node * option node) : M unit :=
  let (approach, code) := pair in
  if truthy approach then
    match approach with
    | Some a =>
        let* text := lift (approach_text a code) in
        let* approach_embedding := model_encode text in
        let* question_text := lift (getitem (q q_data) "text") in
        append_record {| question_id := question_text;
                         approach_type := type;
                         embedding := approach_embedding;
                         approach_node := a;
                         code_node := code |}
    | None => ret tt
    end
  else ret tt.

(** The body of the outer loop. *)
Definition embed_bundle (q_data : question_bundle) : M unit :=
  for_each (embed_pair "approached" q_data)
    (zip (approachedApproaches q_data) (approachedCodes q_data)) ;;
  for_each (embed_pair "optimized" q_data)
    (zip (optimizedApproaches q_data) (optimizedCodes q_data)) ;;
  for_each (embed_pair "improved" q_data)
    (zip (improvedApproaches q_data) (improvedCodes q_data)).

Definition _create_weighted_embeddings
    (questions_data : list question_bundle) (code_analysis : string) : M unit :=
  set_approach_embeddings [] ;;
  for_each embed_bundle questions_data.

(** ** [fetch_related_approaches] *)

(** [np.dot] of two vectors of the same width. *)
Definition np_dot (a b : vec R dim) : R :=
  foldr radd rzero (vec_to_list (vzip_with rmul a b)).

(** [approach_types is None or approach_data['approach_type'] in approach_types]. *)
Definition type_selected (approach_types : option (gset string))
    (approach_data : embedding_record) : bool :=
  match approach_types with
  | None => true
  | Some types => bool_decide (approach_type approach_data ∈ types)
  end.

(** The loop that fills [relevant_approaches]. *)
Fixpoint score_records (query_embedding : vec R dim)
    (approach_types : option (gset string))
    (records : list embedding_record) : list scored_approach :=
  match records with
  | [] => []
  | approach_data :: rest =>
      if type_selected approach_types approach_data then
        {| approach_data := approach_data;
           similarity := np_dot query_embedding (embedding approach_data) |}
        :: score_records query_embedding approach_types rest
      else score_records query_embedding approach_types rest
  end.

(** [list.sort(key=lambda item: item['similarity'], reverse=True)]: the
    stable descending sort, which is what [list.sort] computes where
    [<] is a strict weak order on the keys (no key is NaN); with a NaN
    key the outcome of [list.sort] depends on which comparisons its
    merge strategy makes.  An item is placed behind the items that
    compare strictly greater and in front of everything else, so items
    that came earlier stay in front of their ties. *)
Fixpoint insert_desc (item : scored_approach) (sorted : list scored_approach)
  : list scored_approach :=
  match sorted with
  | [] => [item]
  | y :: rest =>
      if rltb (similarity item) (similarity y)
      then y :: insert_desc item rest
      else item :: y :: rest
  end.

Definition sort_by_similarity_desc (items : list scored_approach)
  : list scored_approach :=
  foldr insert_desc [] items.

Definition fetch_related_approaches (self : search_state)
    (query_embedding : vec R dim) (top_k : Z)
    (approach_types : option (gset string)) : list scored_approach :=
  match approach_embeddings self with
  | [] => []
  | _ :: _ =>
      let relevant_approaches :=
        score_records query_embedding approach_types (approach_embeddings self) in
      slice_to (sort_by_similarity_desc relevant_approaches) top_k
  end.

(** ** [find_similar_approaches] *)

Definition to_result (item : scored_approach) : ranked_result :=
  {| r_question_id := question_id (approach_data item);
     r_approach_node := approach_node (approach_data item);
     r_code_node := code_node (approach_data item);
     similarity_score := similarity item |}.

Definition find_similar_approaches (query_text code_analysis : string)
    (subtopics : list string) (k : Z) : M (list ranked_result) :=
  let* questions_data := _fetch_questions_by_subtopics subtopics in
  match questions_data with
  | _ :: _ =>
      _create_weighted_embeddings questions_data code_analysis ;;
      let* query_embedding := model_encode query_text in
      let* similar_approaches_data :=
        gets (λ self, fetch_related_approaches self query_embedding k None) in
      ret (map to_result similar_approaches_data)
  | [] =>
      print_no_questions subtopics ;;
      ret []
  end.

(** ** Vocabulary of the statements *)

(** The item the scoring loop appends for a record. *)
Definition scored (query_embedding : vec R dim) (record : embedding_record)
  : scored_approach :=
  {| approach_data := record;
     similarity := np_dot query_embedding (embedding record) |}.

(** [a >= b] on scores, through the only comparison the sort uses. *)
Definition not_below (a b : R) : Prop := rltb a b = false.

(** Neither score is below the other. *)
Definition tied (a b : R) : bool := negb (rltb a b) && negb (rltb b a).

(** Every item scores at least as high as every later one. *)
Definition non_increasing (items : list scored_approach) : Prop :=
  StronglySorted (λ a b, not_below (similarity a) (similarity b)) items.

(** [extend s d]: the state [s] after everything logged in [d] has been
    appended to it. *)
Definition extend (s d : search_state) : search_state :=
  {| approach_embeddings := approach_embeddings s ++ approach_embeddings d;
     encode_log := encode_log s ++ encode_log d;
     run_log := run_log s ++ run_log d;
     stdout := stdout s ++ stdout d |}.

(** The state a fresh instance starts in, after [__init__]. *)
Definition init_state : search_state :=
  {| approach_embeddings := []; encode_log := []; run_log := []; stdout := [] |}.

(** A computation that only appends to the state: run anywhere, it does
    what it does on a fresh state. *)
Definition writer_like {A : Type} (m : M A) : Prop :=
  ∀ s, m s = ((m init_state).1, extend s (m init_state).2).

(** The entries of the zipped pairs, in loop order. *)
Definition present_pair (question : node) (type : string)
    (pair : option node * option node) : list entry :=
  match pair.1 with
  | Some a =>
      if dict_truthy a
      then [{| of_question := question; of_type := type;
               of_approach := a; of_code := pair.2 |}]
      else []
  | None => []
  end.

Definition present_entries (q_data : question_bundle) : list entry :=
  flat_map (present_pair (q q_data) "approached")
    (zip (approachedApproaches q_data) (approachedCodes q_data))
  ++ flat_map (present_pair (q q_data) "optimized")
       (zip (optimizedApproaches q_data) (optimizedCodes q_data))
  ++ flat_map (present_pair (q q_data) "improved")
       (zip (improvedApproaches q_data) (improvedCodes q_data)).

(** [record] is what the loop body appends for [e]. *)
Definition embedded (e : entry) (record : embedding_record) : Prop :=
  approach_type record = of_type e
  ∧ approach_node record = of_approach e
  ∧ code_node record = of_code e
  ∧ getitem (of_question e) "text" = inr (question_id record)
  ∧ ∃ text, approach_text (of_approach e) (of_code e) = inr text
            ∧ encode text = inr (embedding record).

(** Nothing the loop body does for [e] raises. *)
Definition embeddable (e : entry) : Prop :=
  ∃ question_text text v,
    getitem (of_question e) "text" = inr question_text
    ∧ approach_text (of_approach e) (of_code e) = inr text
    ∧ encode text = inr v.

(** Every logged encoder call returned. *)
Definition calls_clean (calls : list string) : Prop :=
  Forall (λ t, ∃ v, encode t = inr v) calls.

(** The last logged encoder call raised, the ones before it returned,
    and what it raised is the outcome. *)
Definition raised_by_last_call {A : Type} (res : exn + A) (calls : list string)
  : Prop :=
  ∃ pre t e, calls = pre ++ [t] ∧ calls_clean pre ∧ encode t = inl e
             ∧ res = inl e.

(** What a run of loop bodies over [entries] on a fresh state may end
    in: records for a prefix of the entries (for all of them when it
    returns), and encoder calls that all returned unless the last one
    raised the outcome. *)
Definition builder_outcome (entries : list entry) (res : exn + unit)
    (d : search_state) : Prop :=
  (∃ finished rest,
      entries = finished ++ rest
      ∧ Forall2 embedded finished (approach_embeddings d)
      ∧ (res = inr tt → rest = []))
  ∧ (Forall embeddable entries → res = inr tt)
  ∧ (calls_clean (encode_log d) ∨ raised_by_last_call res (encode_log d))
  ∧ run_log d = [] ∧ stdout d = [].

Definition runs (m : M unit) (entries : list entry) : Prop :=
  writer_like m ∧ builder_outcome entries (m init_state).1 (m init_state).2.

(** The content of the code paired with an approach, empty when there
    is none. *)
Definition code_content (code : option node) : string :=
  match code with
  | Some c => default "" (c !! "content")
  | None => ""
  end.

(** The embedding input the specification words describe: the
    description, then a single separator and the code's content when
    there is content. *)
Definition described_text (description : string) (code : option node) : string :=
  if str_truthy (code_content code)
  then description +:+ " " +:+ code_content code
  else description.

(** [record] is the one record of [e], embedded from the described
    text when the description is not empty. *)
Definition embedded_as_described (e : entry) (record : embedding_record) : Prop :=
  approach_type record = of_type e
  ∧ approach_node record = of_approach e
  ∧ code_node record = of_code e
  ∧ of_question e !! "text" = Some (question_id record)
  ∧ ∀ description,
      of_approach e !! "description" = Some description →
      description ≠ "" →
      encode (described_text description (of_code e)) = inr (embedding record).

(** On [scores] the comparison behaves like that of numbers: it is
    asymmetric, and not being below is transitive.  Floats that are not
    NaN compare so; a NaN among them does not. *)
Definition comparable (scores : list R) : Prop :=
  (∀ a b, a ∈ scores → b ∈ scores → rltb a b = true → rltb b a = false)
  ∧ (∀ a b c, a ∈ scores → b ∈ scores → c ∈ scores →
              rltb a b = false → rltb b c = false → rltb a c = false).

(** ** Vocabulary of the further statements *)

(** The text the loop body hands to the encoder for [e]; the empty
    string stands in when a lookup for it raises and there is no such
    call. *)
Definition entry_text (e : entry) : string :=
  match approach_text (of_approach e) (of_code e) with
  | inr text => text
  | inl _ => ""
  end.

(** What a run of loop bodies over [entries] on a fresh state has sent
    to the encoder: the texts of the entries, in order, as far as it
    got, and at most one call more than it appended records. *)
Definition calls_outcome (entries : list entry) (res : exn + unit)
    (d : search_state) : Prop :=
  encode_log d `prefix_of` map entry_text entries
  ∧ (res = inr tt → encode_log d = map entry_text entries)
  ∧ (length (approach_embeddings d) ≤ length (encode_log d))%nat
  ∧ (length (encode_log d) ≤ S (length (approach_embeddings d)))%nat
  ∧ (res = inr tt →
     length (approach_embeddings d) = length (encode_log d)).

(** What the loop body raises for [e], and at which step: a lookup for
    the text first, then the encoder, then the lookup of the question
    text. *)
Definition entry_raises (e : entry) (x : exn) : Prop :=
  approach_text (of_approach e) (of_code e) = inl x
  ∨ ∃ text,
      approach_text (of_approach e) (of_code e) = inr text
      ∧ (encode text = inl x
         ∨ ∃ v, encode text = inr v ∧ getitem (of_question e) "text" = inl x).

(** A run of loop bodies over [entries] either returns with a record
    for every entry, or raises what the first entry that raises does,
    with the records of the entries before it. *)
Definition stop_outcome (entries : list entry) (res : exn + unit)
    (d : search_state) : Prop :=
  (res = inr tt ∧ Forall2 embedded entries (approach_embeddings d))
  ∨ ∃ x finished next rest,
      res = inl x
      ∧ entries = finished ++ next :: rest
      ∧ Forall2 embedded finished (approach_embeddings d)
      ∧ entry_raises next x.

(** The positions of a bundle at which the loops find a pair: each
    [zip] stops at the end of the shorter list. *)
Definition paired_positions (q_data : question_bundle) : nat :=
  (Nat.min (length (approachedApproaches q_data)) (length (approachedCodes q_data))
   + Nat.min (length (optimizedApproaches q_data)) (length (optimizedCodes q_data))
   + Nat.min (length (improvedApproaches q_data)) (length (improvedCodes q_data)))%nat.

(** [r] is an approach entry of the fetched bundles, scored by the
    plain dot product of the encoded query with the encoded text of the
    entry. *)
Definition result_of (questions_data : list question_bundle)
    (query_text : string) (r : ranked_result) : Prop :=
  ∃ e query_embedding v,
    e ∈ flat_map present_entries questions_data
    ∧ r_approach_node r = of_approach e
    ∧ r_code_node r = of_code e
    ∧ of_question e !! "text" = Some (r_question_id r)
    ∧ approach_text (of_approach e) (of_code e) = inr (entry_text e)
    ∧ encode query_text = inr query_embedding
    ∧ encode (entry_text e) = inr v
    ∧ similarity_score r = np_dot query_embedding v.

(** [m] only appends and, run on a fresh state, ends as [P] says for
    [entries]. *)
Definition keeps (P : list entry → exn + unit → search_state → Prop)
    (m : M unit) (entries : list entry) : Prop :=
  writer_like m ∧ P entries (m init_state).1 (m init_state).2.

End Search.

(** ** A concrete world

    Integer scalars, width 2, an encoder that maps a text to
    [(len(text), 1)] and fails on the text ["<fail>"], and a graph with
    a few topics. *)
Module Scenario.

Definition encode (text : string) : exn + vec Z 2 :=
  if bool_decide (text = "<fail>")
  then inl (EmbeddingFailure "encoder down")
  else inr [# Z.of_nat (String.length text); 1].

Definition question : node := {[ "text" := "Two Sum" ]}.
Definition two_pointers : node := {[ "description" := "use two pointers" ]}.
Definition prefix_sums : node := {[ "description" := "use prefix sums" ]}.
Definition prefix_code : node := {[ "content" := "sum=..." ]}.
Definition blank_description : node := {[ "description" := "" ]}.
Definition no_description : node := {[ "name" := "untitled" ]}.
Definition empty_code : node := {[ "content" := "" ]}.
Definition failing : node := {[ "description" := "<fail>" ]}.

Definition bundle (approached optimized improved
    approached_codes optimized_codes improved_codes : list (option node))
  : question_bundle :=
  {| q := question; testCases := []; constraints := [];
     approachedApproaches := approached; approachedCodes := approached_codes;
     optimizedApproaches := optimized; optimizedCodes := optimized_codes;
     improvedApproaches := improved; improvedCodes := improved_codes |}.

(** Scenario A of the specification. *)
Definition scenario_a : question_bundle :=
  bundle [Some two_pointers] [Some prefix_sums] [] [None] [Some prefix_code] [].

(** An approach without code, as [collect] returns it: the list of codes
    is shorter than the list of approaches. *)
Definition unpaired : question_bundle :=
  bundle [Some two_pointers] [] [] [] [] [].

Definition blank : question_bundle :=
  bundle [Some blank_description] [] [] [None] [] [].



(** An approach without code in front of one with code, as [collect]
    returns them: the only code stands at the first position. *)
Definition misaligned : question_bundle :=
  bundle [Some two_pointers; Some prefix_sums] [] [] [Some prefix_code] [] [].

(** A bundle whose first approach makes the encoder fail. *)
Definition broken : question_bundle :=
  bundle [Some failing; Some two_pointers] [] [] [None; None] [] [].

Definition session_run (subtopics : list string) : exn + list question_bundle :=
  if bool_decide (subtopics = ["Array"]) then inr [scenario_a]
  else if bool_decide (subtopics = ["Offline"])
       then inl (StoreUnavailable "connection refused")
       else if bool_decide (subtopics = ["Broken"])
            then inr [bundle [Some failing; Some two_pointers] [] [] [None; None] [] []]
            else if bool_decide (subtopics = ["Graphs"])
                 then inr [unpaired]
                 else inr [].

Definition start : @search_state Z 2 := init_state.

Definition record (type : string) (v : vec Z 2) : @embedding_record Z 2 :=
  {| question_id := "Two Sum"; approach_type := type; embedding := v;
     approach_node := two_pointers; code_node := None |}.

Definition holding (records : list (@embedding_record Z 2)) : @search_state Z 2 :=
  {| approach_embeddings := records; encode_log := []; run_log := []; stdout := [] |}.

(** Three records; the first and the last tie against the query
    [(1, 0)]. *)
Definition three : list (@embedding_record Z 2) :=
  [record "approached" [# 1; 0]; record "optimized" [# 2; 0];
   record "improved" [# 1; 5]].

Definition rank := @fetch_related_approaches Z 2 0 Z.add Z.mul Z.ltb.
Definition build := @_create_weighted_embeddings Z 2 encode.
Definition search :=
  @find_similar_approaches Z 2 0 Z.add Z.mul Z.ltb session_run encode.

(** The best match for the query ["prefix sums"] under ["Array"]. *)
Definition best : list (@ranked_result Z) :=
  [{| r_question_id := "Two Sum"; r_approach_node := prefix_sums;
      r_code_node := Some prefix_code; similarity_score := 254 |}].


(** The instance after a first query over the topic ["Array"]. *)
Definition after_first : @search_state Z 2 :=
  (search "range sums" "" ["Array"] 1 start).2.

End Scenario.

(** ** A concrete world of binary64 scores

    The ranker over IEEE doubles.  All embeddings and queries are
    finite; against the query [big_query] the second record scores
    [inf - inf], which is NaN. *)
Module Binary64.

Definition record (type : string) (v : vec float 2) : @embedding_record float 2 :=
  {| question_id := "Two Sum"; approach_type := type; embedding := v;
     approach_node := Scenario.two_pointers; code_node := None |}.

Definition low := record "approached" [# 1%float; 0%float].
Definition overflowing := record "optimized" [# 0x1p700%float; (-0x1p700)%float].
Definition high := record "improved" [# 2%float; 0%float].

Definition three : list (@embedding_record float 2) := [low; overflowing; high].

(** The three records and a fourth that ties with the first against
    [unit_query]. *)
Definition four : list (@embedding_record float 2) :=
  three ++ [record "approached" [# 1%float; 5%float]].

Definition big_query : vec float 2 := [# 0x1p700%float; 0x1p700%float].
Definition unit_query : vec float 2 := [# 1%float; 0%float].

Definition holding (records : list (@embedding_record float 2))
  : @search_state float 2 :=
  {| approach_embeddings := records; encode_log := []; run_log := [];
     stdout := [] |}.

Definition dot := @np_dot float 2 0%float PrimFloat.add PrimFloat.mul.

Definition rank :=
  @fetch_related_approaches float 2 0%float PrimFloat.add PrimFloat.mul
    PrimFloat.ltb.

End Binary64.

(** ** [solve_competitive_programming_problem] and the agent functions

    The four agent functions build an agent and a task around an
    f-string and return [crew.kickoff().raw].  A run of a crew is a call
    to the text-generation service, named here by the agent function
    and the values its f-string interpolates; the fixed prose of the
    prompts is not spelled out. *)

Inductive agent_call : Type :=
| Analyze (problem_description : string)
| Design (problem_description analysis_result : string)
| Plan (similar_approach : node) (problem_description problem_analysis : string)
| Code (problem_description solution_plan : string).

(** The lines the pipeline and the facade print. *)
Inductive line : Type :=
| analysis_completed
| tags_generated
| approaches_retrieved
| processing (n : Z)
| plan_created (n : Z)
| solution_coded (n : Z)
| no_questions_found (subtopics : list string).

(** What can end a run of the pipeline: a crew that raised, the
    constructor of the search that raised, or the exception of the
    search itself. *)
Inductive failure : Type :=
| AgentFailure (msg : string)
| SetupFailure (msg : string)
| SearchFailure (x : exn).

(** An element of the list the pipeline returns. *)
Record solution : Type := {
  approach_index : Z;
  analysis : string;
  solution_plan : string;
  final_solution : string
}.

(** Everything a run has sent out so far (oldest first). *)
Record run : Type := {
  crew_log : list agent_call;
  console : list line;
  encoded : list string;
  queried : list (list string)
}.

(** The [tags] literal. *)
Definition tags : list string :=
  ["Array"; "Binary Search"; "Binary Tree and Binary Search Tree";
   "Bit Manipulation"; "Dynamic Programming"; "Graphs"; "Greedy"; "Heaps";
   "Linked List"; "Recursion"; "Strings"; "Tries"; "Two Pointer"].

Section Pipeline.

Context {R : Type} {dim : nat}.
Variable rzero : R.
Variables radd rmul : R → R → R.
Variable rltb : R → R → bool.
Variable session_run : list string → exn + list question_bundle.
Variable encode : string → exn + vec R dim.

(** [crew.kickoff().raw]: the text, or the message of what it raised. *)
Variable kickoff : agent_call → string + string.

(** [GraphDatabase.driver(...)] and [SentenceTransformer(...)] in
    [__init__]: they return, or one of them raises. *)
Variable open_search : string + unit.

Definition program (A : Type) : Type := run → (failure + A) * run.

Definition pret {A : Type} (a : A) : program A := λ w, (inr a, w).

Definition pbind {A B : Type} (m : program A) (f : A → program B) : program B :=
  λ w, match m w with
       | (inr a, w') => f a w'
       | (inl x, w') => (inl x, w')
       end.

Notation "'let*' x := m 'in' k" := (pbind m (λ x, k))
  (at level 10, x name, m at level 100, k at level 200).
Notation "m ;; k" := (pbind m (λ _, k))
  (at level 100, right associativity).

(** [print(...)]. *)
Definition print (l : line) : program unit :=
  λ w, (inr tt, {| crew_log := crew_log w; console := console w ++ [l];
                   encoded := encoded w; queried := queried w |}).

(** [Crew(...).kickoff().raw]: the call is logged, then it returns or
    raises. *)
Definition crew_kickoff (call : agent_call) : program string :=
  λ w, (match kickoff call with
        | inl msg => inl (AgentFailure msg)
        | inr raw => inr raw
        end,
        {| crew_log := crew_log w ++ [call]; console := console w;
           encoded := encoded w; queried := queried w |}).

Definition analyzer_agent (problem_description : string) : program string :=
  crew_kickoff (Analyze problem_description).

Definition designer_agent (problem_description analysis_result : string)
  : program string :=
  crew_kickoff (Design problem_description analysis_result).

Definition create_planner (problem_description problem_analysis : string)
    (similar_approach : node) : program string :=
  crew_kickoff (Plan similar_approach problem_description problem_analysis).

(** The task description of the coder interpolates the problem and the
    plan; [similar_code] is a parameter it does not use. *)
Definition coder_agent (problem_description solution_plan : string)
    (similar_code : option node) : program string :=
  crew_kickoff (Code problem_description solution_plan).

(** [CompetitiveProgrammingSearch(NEO4J_URI, NEO4J_USERNAME,
    NEO4J_PASSWORD)]: [__init__] on a new instance. *)
Definition new_search : program (@search_state R dim) :=
  λ w, (match open_search with
        | inl msg => inl (SetupFailure msg)
        | inr _ => inr init_state
        end, w).

(** A method call on the instance [self]: what the call appends to the
    instance's logs reaches the run; the instance is a local that is
    not used again. *)
Definition call_method {A : Type} (self : @search_state R dim) (m : M A)
  : program A :=
  λ w, let out := m self in
       (match out.1 with
        | inl x => inl (SearchFailure x)
        | inr a => inr a
        end,
        {| crew_log := crew_log w;
           console :=
             console w
             ++ map no_questions_found
                  (drop (length (stdout self)) (stdout out.2));
           encoded :=
             encoded w ++ drop (length (encode_log self)) (encode_log out.2);
           queried :=
             queried w ++ drop (length (run_log self)) (run_log out.2) |}).

(** The loop [for i, approach in enumerate(similar_approaches[:5])]
    from index [i] on, with the [results] appended so far. *)
Fixpoint process_approaches (problem_description analysis_result : string)
    (i : Z) (approaches : list (@ranked_result R)) (results : list solution)
  : program (list solution) :=
  match approaches with
  | [] => pret results
  | approach :: rest =>
      print (processing (i + 1)) ;;
      let approach_data := r_approach_node approach in
      let code_data := r_code_node approach in
      let* plan :=
        create_planner problem_description analysis_result approach_data in
      print (plan_created (i + 1)) ;;
      let* final :=
        coder_agent problem_description plan code_data in
      print (solution_coded (i + 1)) ;;
      process_approaches problem_description analysis_result (i + 1) rest
        (results ++ [{| approach_index := i + 1;
                        analysis := analysis_result;
                        solution_plan := plan;
                        final_solution := final |}])
  end.

Definition solve_competitive_programming_problem (problem_description : string)
  : program (list solution) :=
  let* analysis_result := analyzer_agent problem_description in
  print analysis_completed ;;
  let* designer_output :=
    designer_agent problem_description analysis_result in
  print tags_generated ;;
  let* search := new_search in
  let* similar_approaches :=
    call_method search
      (find_similar_approaches rzero radd rmul rltb session_run encode
         problem_description analysis_result tags 5) in
  print approaches_retrieved ;;
  process_approaches problem_description analysis_result 0
    (slice_to similar_approaches 5) [].

(** *** Vocabulary of the statements about the pipeline *)

(** The run [w] after the crew calls and lines of a loop over plans
    and solutions have been appended. *)
Definition after_crews (w : run) (calls : list agent_call) (lines : list line)
  : run :=
  {| crew_log := crew_log w ++ calls; console := console w ++ lines;
     encoded := encoded w; queried := queried w |}.

(** [s] is the solution planned from the retrieved approach [r] and
    coded from that plan. *)
Definition solved_from (problem_description analysis_result : string)
    (r : @ranked_result R) (s : solution) : Prop :=
  analysis s = analysis_result
  ∧ kickoff (Plan (r_approach_node r) problem_description analysis_result)
    = inr (solution_plan s)
  ∧ kickoff (Code problem_description (solution_plan s))
    = inr (final_solution s).

(** The crews the loop runs for one approach, and the lines it prints
    for the approach numbered [n]. *)
Definition crews_of (problem_description analysis_result : string)
    (r : @ranked_result R) (s : solution) : list agent_call :=
  [Plan (r_approach_node r) problem_description analysis_result;
   Code problem_description (solution_plan s)].

Fixpoint loop_crews (problem_description analysis_result : string)
    (approaches : list (@ranked_result R)) (solutions : list solution)
  : list agent_call :=
  match approaches, solutions with
  | r :: approaches', s :: solutions' =>
      crews_of problem_description analysis_result r s
      ++ loop_crews problem_description analysis_result approaches' solutions'
  | _, _ => []
  end.

Definition lines_of (n : Z) : list line :=
  [processing n; plan_created n; solution_coded n].

(** Two outcomes of a crew that the pipeline cannot tell apart when it
    does not read the text: both return, or both raise the same. *)
Definition same_outcome (r1 r2 : string + string) : Prop :=
  match r1, r2 with
  | inr _, inr _ => True
  | inl m1, inl m2 => m1 = m2
  | _, _ => False
  end.

Definition is_design (call : agent_call) : bool :=
  match call with
  | Design _ _ => true
  | _ => false
  end.

End Pipeline.

(** A concrete pipeline: the concrete encoder, a graph that has the
    bundle of scenario A under the tag ["Array"], and a text-generation
    service that answers with a label in front of its last input. *)
Module Studio.

Definition session_run (subtopics : list string) : exn + list question_bundle :=
  if bool_decide ("Array" ∈ subtopics) then inr [Scenario.scenario_a] else inr [].

Definition kickoff (call : agent_call) : string + string :=
  match call with
  | Analyze problem => inr ("analysis: " +:+ problem)
  | Design problem _ => inr ("tests: " +:+ problem)
  | Plan approach problem _ =>
      inr ("plan: " +:+ default "" (approach !! "description"))
  | Code problem plan => inr ("code: " +:+ plan)
  end.

(** The same service with another test designer. *)
Definition kickoff_other (call : agent_call) : string + string :=
  match call with
  | Design problem analysis_result => inr ("no tests for " +:+ analysis_result)
  | _ => kickoff call
  end.

(** A service whose planner is down. *)
Definition kickoff_no_plans (call : agent_call) : string + string :=
  match call with
  | Plan _ _ _ => inl "planner timed out"
  | _ => kickoff call
  end.

Definition blank_run : run :=
  {| crew_log := []; console := []; encoded := []; queried := [] |}.

Definition solve :=
  @solve_competitive_programming_problem Z 2 0 Z.add Z.mul Z.ltb
    session_run Scenario.encode kickoff (inr tt).

Definition solve_other :=
  @solve_competitive_programming_problem Z 2 0 Z.add Z.mul Z.ltb
    session_run Scenario.encode kickoff_other (inr tt).

Definition solve_no_plans :=
  @solve_competitive_programming_problem Z 2 0 Z.add Z.mul Z.ltb
    session_run Scenario.encode kickoff_no_plans (inr tt).

(** What the run on the problem ["two sum"] returns. *)
Definition two_solutions : list solution :=
  [{| approach_index := 1; analysis := "analysis: two sum";
      solution_plan := "plan: use prefix sums";
      final_solution := "code: plan: use prefix sums" |};
   {| approach_index := 2; analysis := "analysis: two sum";
      solution_plan := "plan: use two pointers";
      final_solution := "code: plan: use two pointers" |}].

(** Two retrieved approaches with the same approach node and nothing
    else in common. *)
Definition retrieved (code : option node) (score : Z) : @ranked_result Z :=
  {| r_question_id := "Two Sum"; r_approach_node := Scenario.two_pointers;
     r_code_node := code; similarity_score := score |}.

(** The same pipeline over a graph that knows none of the tags. *)
Definition solve_nothing :=
  @solve_competitive_programming_problem Z 2 0 Z.add Z.mul Z.ltb
    Scenario.session_run Scenario.encode kickoff (inr tt).

End Studio.

(** * The ranker *)

Section RankerTheory.

Context {R : Type} {dim : nat}.
Variable rzero : R.
Variables radd rmul : R → R → R.
Variable rltb : R → R → bool.

Local Abbreviation record := (@embedding_record R dim).
Local Abbreviation item := (@scored_approach R dim).
Local Abbreviation np_dot := (np_dot rzero radd rmul).
Local Abbreviation scored := (scored rzero radd rmul).
Local Abbreviation score_records := (score_records rzero radd rmul).
Local Abbreviation insert_desc := (insert_desc rltb).
Local Abbreviation sort_by_similarity_desc := (sort_by_similarity_desc rltb).
Local Abbreviation fetch_related_approaches :=
  (fetch_related_approaches rzero radd rmul rltb).

Implicit Types (self : @search_state R dim) (records : list record)
  (items : list item) (query : vec R dim) (k : Z)
  (types : option (gset string)).

(** *** The scoring loop *)

Lemma score_records_filter query types records :
  score_records query types records
  = map (scored query) (List.filter (type_selected types) records).
Proof.
  induction records as [|r records IH]; simpl; [done|].
  destruct (type_selected types r); simpl; by rewrite IH.
Qed.

Lemma score_records_similarity query types records :
  Forall (λ it, similarity it = np_dot query (embedding (approach_data it)))
    (score_records query types records).
Proof.
  induction records as [|r records IH]; simpl; [constructor|].
  destruct (type_selected types r); [constructor|]; done.
Qed.

Lemma score_records_selected query types records :
  Forall (λ it, type_selected types (approach_data it) = true)
    (score_records query types records).
Proof.
  induction records as [|r records IH]; simpl; [constructor|].
  destruct (type_selected types r) eqn:E; [constructor|]; done.
Qed.

(** *** The sort is a permutation *)

Lemma insert_desc_perm x items : insert_desc x items ≡ₚ x :: items.
Proof.
  induction items as [|y items IH]; simpl; [done|].
  destruct (rltb _ _); [|done].
  rewrite IH. apply Permutation_swap.
Qed.

Lemma sort_perm items : sort_by_similarity_desc items ≡ₚ items.
Proof.
  induction items as [|x items IH]; simpl; [done|].
  rewrite insert_desc_perm. by constructor.
Qed.

Lemma length_sort items :
  length (sort_by_similarity_desc items) = length items.
Proof. apply Permutation_length, sort_perm. Qed.

(** *** Slices *)

Lemma slice_to_take {A : Type} (l : list A) k : ∃ n, slice_to l k = take n l.
Proof. unfold slice_to. destruct (k <? 0); eauto. Qed.

Lemma length_slice_to_nonneg {A : Type} (l : list A) k :
  0 ≤ k → length (slice_to l k) = Nat.min (Z.to_nat k) (length l).
Proof.
  intros Hk. unfold slice_to.
  destruct (Z.ltb_spec k 0); [lia|]. apply length_take.
Qed.

Lemma slice_to_all {A : Type} (l : list A) k :
  Z.of_nat (length l) ≤ k → slice_to l k = l.
Proof.
  intros Hk. unfold slice_to.
  destruct (Z.ltb_spec k 0); [lia|]. apply take_ge. lia.
Qed.

Lemma slice_to_negative {A : Type} (l : list A) k :
  k < 0 → slice_to l k = take (length l - Z.to_nat (- k)) l.
Proof.
  intros Hk. unfold slice_to.
  destruct (Z.ltb_spec k 0); [|lia]. f_equal. lia.
Qed.

(** *** The method body, without its early return *)

Lemma fetch_related_approaches_unfold self query k types :
  fetch_related_approaches self query k types
  = slice_to (sort_by_similarity_desc
                (score_records query types (approach_embeddings self))) k.
Proof.
  unfold fetch_related_approaches.
  destruct (approach_embeddings self); [|reflexivity].
  simpl. unfold slice_to. destruct (k <? 0); by rewrite take_nil.
Qed.

Lemma length_slice_to_le {A : Type} (l : list A) k :
  (length (slice_to l k) ≤ length l)%nat.
Proof.
  destruct (slice_to_take l k) as [n ->]. rewrite length_take. lia.
Qed.


(** C5: with a type filter every returned item carries a type of the
    filter and there are at most as many items as records of those
    types; without a filter every record is scored. *)
Theorem ranker_respects_type_filter self query k (types : gset string) :
  Forall (λ it, approach_type (approach_data it) ∈ types)
    (fetch_related_approaches self query k (Some types))
  ∧ (length (fetch_related_approaches self query k (Some types))
     ≤ length (List.filter (λ r, bool_decide (approach_type r ∈ types))
                 (approach_embeddings self)))%nat
  ∧ score_records query None (approach_embeddings self)
    = map (scored query) (approach_embeddings self)
  ∧ fetch_related_approaches self query k None
    = slice_to (sort_by_similarity_desc
                  (map (scored query) (approach_embeddings self))) k.
Proof.
  assert (Hnone : score_records query None (approach_embeddings self)
                  = map (scored query) (approach_embeddings self)).
  { induction (approach_embeddings self) as [|r l IH]; simpl; [done|].
    by rewrite IH. }
  split_and!.
  - rewrite fetch_related_approaches_unfold.
    destruct (slice_to_take
                (sort_by_similarity_desc
                   (score_records query (Some types) (approach_embeddings self)))
                k) as [n ->].
    apply Forall_take.
    eapply Permutation_Forall; [symmetry; apply sort_perm|].
    eapply Forall_impl; [apply score_records_selected|].
    intros it Hit. simpl in Hit. by apply bool_decide_eq_true in Hit.
  - rewrite fetch_related_approaches_unfold.
    etransitivity; [apply length_slice_to_le|].
    rewrite length_sort, score_records_filter, length_map. done.
  - done.
  - by rewrite fetch_related_approaches_unfold, Hnone.
Qed.

(** *** Order and stability, for scores that compare like numbers *)

Section Ordered.

Hypothesis rlt_asym : ∀ a b, rltb a b = true → rltb b a = false.
Hypothesis rlt_negtrans :
  ∀ a b c, rltb a b = false → rltb b c = false → rltb a c = false.

Local Abbreviation non_increasing := (non_increasing rltb).
Local Abbreviation tied := (tied rltb).
Local Abbreviation not_below := (not_below rltb).



Lemma tied_not_below v a b :
  tied v a = true → tied v b = true → rltb a b = false.
Proof.
  unfold tied. intros [_ Ha]%andb_prop [Hb _]%andb_prop.
  apply negb_true_iff in Ha, Hb. eauto.
Qed.

(** Insertion leaves every class of tied scores in its order. *)
Lemma insert_desc_filter_tied v x items :
  List.filter (λ it, tied v (similarity it)) (insert_desc x items)
  = List.filter (λ it, tied v (similarity it)) (x :: items).
Proof.
  induction items as [|y items IH]; [done|].
  cbn [insert_desc].
  destruct (rltb (similarity x) (similarity y)) eqn:Hxy; [|done].
  cbn [List.filter] in *. rewrite IH.
  destruct (tied v (similarity x)) eqn:Hx, (tied v (similarity y)) eqn:Hy;
    try done.
  rewrite (tied_not_below v _ _ Hx Hy) in Hxy. done.
Qed.

Lemma sort_filter_tied v items :
  List.filter (λ it, tied v (similarity it)) (sort_by_similarity_desc items)
  = List.filter (λ it, tied v (similarity it)) items.
Proof.
  induction items as [|x items IH]; [done|].
  cbn [sort_by_similarity_desc foldr].
  rewrite insert_desc_filter_tied. cbn [List.filter].
  fold (sort_by_similarity_desc items). by rewrite IH.
Qed.

Lemma filter_scored_tied v query records :
  map approach_data
    (List.filter (λ it, tied v (similarity it)) (map (scored query) records))
  = List.filter (λ r, tied v (np_dot query (embedding r))) records.
Proof.
  induction records as [|r records IH]; [done|]. simpl.
  destruct (tied v _); simpl; by rewrite IH.
Qed.

End Ordered.

End RankerTheory.

(** * The ranker on comparable scores *)

Section RankerComparable.

Context {R : Type} {dim : nat}.
Variable rzero : R.
Variables radd rmul : R → R → R.
Variable rltb : R → R → bool.

Local Abbreviation record := (@embedding_record R dim).
Local Abbreviation item := (@scored_approach R dim).
Local Abbreviation np_dot := (np_dot rzero radd rmul).
Local Abbreviation scored := (scored rzero radd rmul).
Local Abbreviation score_records := (score_records rzero radd rmul).
Local Abbreviation insert_desc := (insert_desc rltb).
Local Abbreviation sort_by_similarity_desc := (sort_by_similarity_desc rltb).
Local Abbreviation fetch_related_approaches :=
  (fetch_related_approaches rzero radd rmul rltb).
Local Abbreviation non_increasing := (non_increasing rltb).
Local Abbreviation tied := (tied rltb).
Local Abbreviation not_below := (not_below rltb).
Local Abbreviation comparable := (comparable rltb).

Implicit Types (self : @search_state R dim) (records : list record)
  (items : list item) (query : vec R dim) (k : Z)
  (types : option (gset string)).

(** *** Sorting items whose scores lie where the order laws hold *)

Section On.

Variable ok : R → Prop.
Hypothesis ok_asym : ∀ a b, ok a → ok b → rltb a b = true → rltb b a = false.
Hypothesis ok_negtrans : ∀ a b c, ok a → ok b → ok c →
  rltb a b = false → rltb b c = false → rltb a c = false.

Local Abbreviation all_ok items := (Forall (λ it : item, ok (similarity it)) items).

Lemma insert_desc_sorted_on x items :
  ok (similarity x) → all_ok items →
  non_increasing items → non_increasing (insert_desc x items).
Proof.
  intros Hx Hitems Hsorted. unfold non_increasing in *.
  induction Hsorted as [|y items Hsorted IH Hy]; simpl.
  - repeat constructor.
  - apply Forall_cons in Hitems as [Hoy Hitems].
    destruct (rltb (similarity x) (similarity y)) eqn:Hxy.
    + constructor; [by apply IH|].
      eapply Permutation_Forall; [symmetry; apply insert_desc_perm|].
      constructor; [|exact Hy]. by apply ok_asym.
    + constructor; [by constructor|]. constructor; [exact Hxy|].
      rewrite Forall_forall in Hy, Hitems. apply Forall_forall.
      intros z Hz. unfold not_below.
      apply (ok_negtrans _ (similarity y)); auto. by apply Hy.
Qed.

Lemma sort_all_ok items : all_ok items → all_ok (sort_by_similarity_desc items).
Proof.
  intros Hitems. eapply Permutation_Forall; [symmetry; apply sort_perm|done].
Qed.

Lemma sort_sorted_on items :
  all_ok items → non_increasing (sort_by_similarity_desc items).
Proof.
  induction items as [|x items IH]; simpl; intros Hitems.
  - constructor.
  - apply Forall_cons in Hitems as [Hx Hitems].
    apply insert_desc_sorted_on; [done|by apply sort_all_ok|by apply IH].
Qed.

Lemma tied_not_below_on v a b :
  ok v → ok a → ok b →
  tied v a = true → tied v b = true → rltb a b = false.
Proof.
  intros Hv Ha Hb. unfold tied. intros [_ Hav]%andb_prop [Hvb _]%andb_prop.
  apply negb_true_iff in Hav, Hvb. by apply (ok_negtrans a v b).
Qed.

Lemma insert_desc_filter_tied_on v x items :
  ok v → ok (similarity x) → all_ok items →
  List.filter (λ it, tied v (similarity it)) (insert_desc x items)
  = List.filter (λ it, tied v (similarity it)) (x :: items).
Proof.
  intros Hv Hx Hitems.
  induction items as [|y items IH]; [done|].
  apply Forall_cons in Hitems as [Hy Hitems].
  cbn [insert_desc].
  destruct (rltb (similarity x) (similarity y)) eqn:Hxy; [|done].
  cbn [List.filter] in *. rewrite (IH Hitems).
  destruct (tied v (similarity x)) eqn:Htx, (tied v (similarity y)) eqn:Hty;
    try done.
  rewrite (tied_not_below_on v _ _ Hv Hx Hy Htx Hty) in Hxy. done.
Qed.

Lemma sort_filter_tied_on v items :
  ok v → all_ok items →
  List.filter (λ it, tied v (similarity it)) (sort_by_similarity_desc items)
  = List.filter (λ it, tied v (similarity it)) items.
Proof.
  intros Hv. induction items as [|x items IH]; [done|]. intros Hitems.
  apply Forall_cons in Hitems as [Hx Hitems].
  cbn [sort_by_similarity_desc foldr].
  rewrite insert_desc_filter_tied_on; [|done|done|by apply sort_all_ok].
  cbn [List.filter]. fold (sort_by_similarity_desc items).
  by rewrite (IH Hitems).
Qed.

End On.

(** *** The scores of the records that pass the filter *)

Lemma scored_items_in_scores query types records :
  Forall (λ it : item,
            similarity it
            ∈ map (λ r, np_dot query (embedding r))
                (List.filter (type_selected types) records))
    (score_records query types records).
Proof.
  rewrite score_records_filter. apply Forall_forall. intros it Hit.
  apply list_elem_of_In, in_map_iff in Hit as (r & <- & Hr).
  apply list_elem_of_In, in_map_iff. by exists r.
Qed.

Lemma sorted_when_comparable query types records :
  comparable (map (λ r, np_dot query (embedding r))
                (List.filter (type_selected types) records)) →
  non_increasing (sort_by_similarity_desc (score_records query types records)).
Proof.
  intros [Hasym Hnegtrans].
  apply (sort_sorted_on _ Hasym Hnegtrans), scored_items_in_scores.
Qed.

Lemma tied_classes_when_comparable query types records v :
  comparable (map (λ r, np_dot query (embedding r))
                (List.filter (type_selected types) records)) →
  v ∈ map (λ r, np_dot query (embedding r))
        (List.filter (type_selected types) records) →
  List.filter (λ it, tied v (similarity it))
    (sort_by_similarity_desc (score_records query types records))
  = List.filter (λ it, tied v (similarity it))
      (score_records query types records).
Proof.
  intros [Hasym Hnegtrans] Hv.
  apply (sort_filter_tied_on
           (λ a, a ∈ map (λ r, np_dot query (embedding r))
                       (List.filter (type_selected types) records))
           Hnegtrans v); [done|].
  apply scored_items_in_scores.
Qed.

Lemma fetch_is_a_take self query k types :
  ∃ n,
    fetch_related_approaches self query k types
    = take n (sort_by_similarity_desc
                (score_records query types (approach_embeddings self))).
Proof.
  rewrite (fetch_related_approaches_unfold rzero radd rmul rltb).
  apply slice_to_take.
Qed.

(** C3 (as amended): when the scores of the records that pass the
    filter compare like numbers (none of them is NaN), the returned
    sequence is ordered by non-increasing score, each score is the plain
    dot product of the query with the record's embedding, and the
    records of equal score come out in the order they have in the
    record list. *)
Theorem ranker_descending_and_stable self query k types :
  comparable (map (λ r, np_dot query (embedding r))
                (List.filter (type_selected types) (approach_embeddings self))) →
  non_increasing (fetch_related_approaches self query k types)
  ∧ Forall (λ it, similarity it = np_dot query (embedding (approach_data it)))
      (fetch_related_approaches self query k types)
  ∧ ∀ v,
      v ∈ map (λ r, np_dot query (embedding r))
            (List.filter (type_selected types) (approach_embeddings self)) →
      map approach_data
        (List.filter (λ it, tied v (similarity it))
           (fetch_related_approaches self query k types))
      `prefix_of`
      List.filter (λ r, tied v (np_dot query (embedding r)))
        (List.filter (type_selected types) (approach_embeddings self)).
Proof.
  intros Hcmp. destruct (fetch_is_a_take self query k types) as [n ->].
  set (ranked := sort_by_similarity_desc _).
  split_and!.
  - pose proof (sorted_when_comparable _ _ _ Hcmp) as Hsorted.
    fold ranked in Hsorted. unfold non_increasing in *.
    rewrite <- (take_drop n ranked) in Hsorted.
    by apply StronglySorted_app_1_l in Hsorted.
  - apply Forall_take.
    eapply Permutation_Forall; [symmetry; apply sort_perm|].
    apply score_records_similarity.
  - intros v Hv.
    rewrite <- filter_scored_tied, <- score_records_filter.
    rewrite <- (tied_classes_when_comparable _ _ _ v Hcmp Hv).
    fold ranked. rewrite <- (take_drop n ranked) at 2.
    rewrite List.filter_app, map_app. by eexists.
Qed.

(** C9 (as amended): [top_k = 0] gives the empty list, and a negative
    [top_k] does not raise: the result is the ranked list of the records
    that pass the filter without its last [|top_k|] items (without all
    of them when there are fewer); when the scores compare like numbers
    (none is NaN) the items removed are lowest-scoring ones: returned
    and removed items are in non-increasing order, and no removed item
    scores above a returned one. *)
Theorem ranker_nonpositive_top_k self query k types :
  approach_embeddings self ≠ [] →
  fetch_related_approaches self query 0 types = []
  ∧ (k < 0 →
     ∃ removed,
       sort_by_similarity_desc
         (score_records query types (approach_embeddings self))
       = fetch_related_approaches self query k types ++ removed
       ∧ fetch_related_approaches self query k types ++ removed
         ≡ₚ map (scored query)
              (List.filter (type_selected types) (approach_embeddings self))
       ∧ length removed
         = Nat.min (Z.to_nat (- k))
             (length (List.filter (type_selected types) (approach_embeddings self)))
       ∧ (comparable
            (map (λ r, np_dot query (embedding r))
               (List.filter (type_selected types) (approach_embeddings self))) →
          non_increasing (fetch_related_approaches self query k types ++ removed)
          ∧ ∀ a b,
              a ∈ fetch_related_approaches self query k types →
              b ∈ removed →
              not_below (similarity a) (similarity b))).
Proof.
  intros _. rewrite !(fetch_related_approaches_unfold rzero radd rmul rltb).
  split; [reflexivity|].
  intros Hk. rewrite slice_to_negative by done.
  set (ranked := sort_by_similarity_desc _) in *.
  exists (drop (length ranked - Z.to_nat (- k)) ranked).
  rewrite take_drop. split_and!.
  - done.
  - unfold ranked. by rewrite sort_perm, score_records_filter.
  - rewrite length_drop. unfold ranked.
    rewrite length_sort, score_records_filter, length_map. lia.
  - intros Hcmp.
    pose proof (sorted_when_comparable _ _ _ Hcmp) as Hsorted.
    fold ranked in Hsorted. split; [done|].
    intros a b Ha Hb. unfold non_increasing in Hsorted.
    rewrite <- (take_drop (length ranked - Z.to_nat (- k)) ranked) in Hsorted.
    by apply (StronglySorted_app_1_elem_of _ _ _ a b) in Hsorted.
Qed.

End RankerComparable.

(** * The builder *)

Section BuilderTheory.

Context {R : Type} {dim : nat}.
Variable encode : string → exn + vec R dim.

Local Abbreviation state := (@search_state R dim).
Local Abbreviation record := (@embedding_record R dim).
Local Abbreviation init := (@init_state R dim).
Local Abbreviation M := (@M R dim).
Local Abbreviation embed_pair := (embed_pair encode).
Local Abbreviation embed_bundle := (embed_bundle encode).
Local Abbreviation _create_weighted_embeddings :=
  (_create_weighted_embeddings encode).
Local Abbreviation embedded := (embedded encode).
Local Abbreviation embeddable := (embeddable encode).
Local Abbreviation calls_clean := (calls_clean encode).
Local Abbreviation raised_by_last_call := (raised_by_last_call encode).
Local Abbreviation builder_outcome := (builder_outcome encode).
Local Abbreviation runs := (runs encode).
Local Abbreviation embedded_as_described := (embedded_as_described encode).

Implicit Types (s d : state) (entries : list entry).

(** *** States under [extend] *)

Lemma extend_init_l d : extend init d = d.
Proof. by destruct d. Qed.

Lemma extend_init_r s : extend s init = s.
Proof. destruct s. unfold extend. simpl. by rewrite !app_nil_r. Qed.

Lemma extend_assoc s d1 d2 : extend (extend s d1) d2 = extend s (extend d1 d2).
Proof. unfold extend. simpl. by rewrite !app_assoc. Qed.

(** *** Computations that only append *)

Lemma writer_like_ret {A : Type} (a : A) : writer_like (dim := dim) (R := R) (ret a).
Proof. intros s. unfold ret. simpl. by rewrite extend_init_r. Qed.

Lemma writer_like_lift {A : Type} (r : exn + A) :
  writer_like (dim := dim) (R := R) (lift r).
Proof. intros s. unfold lift. simpl. by rewrite extend_init_r. Qed.

Lemma writer_like_model_encode text : writer_like (model_encode encode text).
Proof.
  intros s. unfold model_encode, extend. simpl. by rewrite !app_nil_r.
Qed.

Lemma writer_like_append_record (r : record) : writer_like (append_record r).
Proof.
  intros s. unfold append_record, extend. simpl. by rewrite !app_nil_r.
Qed.

Lemma bind_init {A B : Type} (m : M A) (f : A → M B) :
  writer_like m → (∀ a, writer_like (f a)) →
  bind m f init
  = match (m init).1 with
    | inr a => ((f a init).1, extend (m init).2 (f a init).2)
    | inl e => (inl e, (m init).2)
    end.
Proof.
  intros Hm Hf. unfold bind.
  destruct (m init) as [[e|a] d]; simpl; [done|]. apply Hf.
Qed.

Lemma writer_like_bind {A B : Type} (m : M A) (f : A → M B) :
  writer_like m → (∀ a, writer_like (f a)) → writer_like (bind m f).
Proof.
  intros Hm Hf s. rewrite (bind_init m f Hm Hf).
  unfold bind. rewrite (Hm s).
  destruct (m init) as [[e|a] d]; simpl; [done|].
  by rewrite (Hf a (extend s d)), extend_assoc.
Qed.

Lemma writer_like_for_each {A : Type} (body : A → M unit) (l : list A) :
  (∀ x, writer_like (body x)) → writer_like (dim := dim) (R := R) (for_each body l).
Proof.
  intros Hbody. induction l as [|x l IH]; simpl.
  - apply writer_like_ret.
  - by apply writer_like_bind.
Qed.

Lemma writer_like_embed_pair type q_data pair :
  writer_like (embed_pair type q_data pair).
Proof.
  destruct pair as [[a|] code]; simpl; [|apply writer_like_ret].
  destruct (dict_truthy a); [|apply writer_like_ret].
  apply writer_like_bind; [apply writer_like_lift|]. intros text.
  apply writer_like_bind; [apply writer_like_model_encode|]. intros v.
  apply writer_like_bind; [apply writer_like_lift|]. intros question_text.
  apply writer_like_append_record.
Qed.

Lemma writer_like_embed_bundle q_data : writer_like (embed_bundle q_data).
Proof.
  unfold embed_bundle.
  repeat (apply writer_like_bind; [|intros _]);
    apply writer_like_for_each; intros pair; apply writer_like_embed_pair.
Qed.

(** *** Outcomes compose along the loops *)

Lemma calls_clean_of_returned {A : Type} (a : A) calls :
  calls_clean calls ∨ raised_by_last_call (inr a) calls → calls_clean calls.
Proof. intros [H|(pre & t & e & _ & _ & _ & H)]; [done|discriminate]. Qed.

Lemma outcome_nil : builder_outcome [] (inr tt) init.
Proof.
  split_and!; try done.
  - exists [], []. split_and!; [done|constructor|done].
  - left. constructor.
Qed.

Lemma outcome_seq_returned entries1 entries2 res d1 d2 :
  builder_outcome entries1 (inr tt) d1 →
  builder_outcome entries2 res d2 →
  builder_outcome (entries1 ++ entries2) res (extend d1 d2).
Proof.
  intros ((fin1 & rest1 & -> & Hfin1 & Hrest1) & _ & Hcalls1 & Hrun1 & Hout1)
         ((fin2 & rest2 & -> & Hfin2 & Hrest2) & Hok2 & Hcalls2 & Hrun2 & Hout2).
  rewrite (Hrest1 eq_refl), app_nil_r.
  apply calls_clean_of_returned in Hcalls1.
  split_and!; simpl.
  - exists (fin1 ++ fin2), rest2. split_and!; [by rewrite app_assoc| |done].
    by apply Forall2_app.
  - intros Hall. apply Forall_app in Hall. tauto.
  - destruct Hcalls2 as [Hclean|(pre & t & e & -> & Hpre & Ht & ->)].
    + left. by apply Forall_app.
    + right. exists (encode_log d1 ++ pre), t, e.
      split_and!; [by rewrite app_assoc| |done|done].
      by apply Forall_app.
  - by rewrite Hrun1, Hrun2.
  - by rewrite Hout1, Hout2.
Qed.

Lemma outcome_seq_raised entries1 entries2 (e : exn) d1 :
  builder_outcome entries1 (inl e) d1 →
  builder_outcome (entries1 ++ entries2) (inl e) d1.
Proof.
  intros ((fin1 & rest1 & -> & Hfin1 & Hrest1) & Hok1 & Hcalls1 & Hrun1 & Hout1).
  split_and!; try done.
  - exists fin1, (rest1 ++ entries2). split_and!; [by rewrite app_assoc|done|done].
  - intros Hall. apply Forall_app in Hall. tauto.
Qed.

Lemma runs_ret : runs (ret tt) [].
Proof. split; [apply writer_like_ret|apply outcome_nil]. Qed.

Lemma runs_seq (m1 m2 : M unit) entries1 entries2 :
  runs m1 entries1 → runs m2 entries2 →
  runs (bind m1 (λ _, m2)) (entries1 ++ entries2).
Proof.
  intros [Hw1 Ho1] [Hw2 Ho2]. split; [by apply writer_like_bind|].
  rewrite bind_init by done.
  destruct (m1 init) as [[e|[]] d1]; simpl in *.
  - by apply outcome_seq_raised.
  - by apply outcome_seq_returned.
Qed.

Lemma runs_for_each {A : Type} (body : A → M unit)
    (entries_of : A → list entry) l :
  (∀ x, runs (body x) (entries_of x)) →
  runs (for_each body l) (flat_map entries_of l).
Proof.
  intros Hbody. induction l as [|x l IH]; simpl.
  - apply runs_ret.
  - by apply runs_seq.
Qed.

(** *** The loop body *)

Lemma lookup_truthy (d : node) key v : d !! key = Some v → dict_truthy d = true.
Proof.
  intros Hkey. unfold dict_truthy. apply negb_true_iff, bool_decide_eq_false.
  intros ->. by rewrite lookup_empty in Hkey.
Qed.

Lemma falsy_empty (d : node) : dict_truthy d = false → d = ∅.
Proof.
  unfold dict_truthy. intros H%negb_false_iff. by apply bool_decide_eq_true in H.
Qed.

Lemma runs_embed_pair type q_data pair :
  runs (embed_pair type q_data pair) (present_pair (q q_data) type pair).
Proof.
  split; [apply writer_like_embed_pair|].
  destruct pair as [[a|] code]; unfold present_pair; simpl; [|apply outcome_nil].
  destruct (dict_truthy a); [|apply outcome_nil].
  set (e := {| of_question := q q_data; of_type := type;
               of_approach := a; of_code := code |}).
  assert (Hstuck : ∀ x : exn, ∃ finished rest,
             [e] = finished ++ rest
             ∧ Forall2 embedded finished []
             ∧ (@inl exn unit x = inr tt → rest = [])).
  { intros x. exists [], [e]. split_and!; [done|constructor|done]. }
  unfold bind, lift, model_encode, append_record. simpl.
  destruct (approach_text a code) as [x|text] eqn:Htext; simpl.
  { split_and!; [apply Hstuck| | |done|done].
    - intros [(? & ? & ? & _ & Ht & _) _]%Forall_cons. simpl in Ht. congruence.
    - left. constructor. }
  destruct (encode text) as [x|v] eqn:Hv; simpl.
  { split_and!; [apply Hstuck| | |done|done].
    - intros [(? & ? & ? & _ & Ht & Hv') _]%Forall_cons. simpl in Ht. congruence.
    - right. exists [], text, x. split_and!; [done|constructor|done|done]. }
  destruct (getitem (q q_data) "text") as [x|question_text] eqn:Hq; simpl.
  { split_and!; [apply Hstuck| | |done|done].
    - intros [(? & ? & ? & Hq' & _) _]%Forall_cons. simpl in Hq'. congruence.
    - left. repeat constructor. eauto. }
  split_and!; [| done | |done|done].
  - exists [e], []. split_and!; [done| |done].
    repeat constructor; simpl; eauto.
  - left. repeat constructor. eauto.
Qed.

Lemma runs_embed_bundle q_data : runs (embed_bundle q_data) (present_entries q_data).
Proof.
  unfold embed_bundle, present_entries.
  repeat apply runs_seq; apply runs_for_each; intros pair; apply runs_embed_pair.
Qed.

Lemma runs_bundles questions_data :
  runs (for_each embed_bundle questions_data)
       (flat_map present_entries questions_data).
Proof. apply runs_for_each, runs_embed_bundle. Qed.

(** The builder is the loop run on a fresh record list. *)
Lemma create_weighted_embeddings_fresh questions_data code_analysis s :
  _create_weighted_embeddings questions_data code_analysis s
  = ((for_each embed_bundle questions_data init).1,
     {| approach_embeddings :=
          approach_embeddings (for_each embed_bundle questions_data init).2;
        encode_log :=
          encode_log s ++ encode_log (for_each embed_bundle questions_data init).2;
        run_log := run_log s;
        stdout := stdout s |}).
Proof.
  destruct (runs_bundles questions_data) as [Hw (_ & _ & _ & Hrun & Hout)].
  unfold _create_weighted_embeddings, bind, set_approach_embeddings.
  rewrite Hw. unfold extend. simpl. by rewrite Hrun, Hout, !app_nil_r.
Qed.


(** *** The embedding input *)

Lemma approach_text_described (a : node) code description text :
  a !! "description" = Some description → description ≠ "" →
  approach_text a code = inr text → text = described_text description code.
Proof.
  intros Ha Hne.
  unfold approach_text, getitem, described_text, code_content. rewrite Ha.
  destruct description as [|x description]; [done|].
  destruct code as [c|]; simpl; [|by intros [= <-]].
  destruct (dict_truthy c) eqn:Hc.
  - destruct (c !! "content") as [content|]; simpl; [|done].
    destruct content; simpl; by intros [= <-].
  - apply falsy_empty in Hc as ->. rewrite lookup_empty. simpl.
    by intros [= <-].
Qed.

Lemma approach_text_empty_content (a c : node) description :
  a !! "description" = Some description → c !! "content" = Some "" →
  approach_text a (Some c) = inr description.
Proof.
  intros Ha Hc. unfold approach_text, getitem. rewrite Ha. simpl.
  rewrite (lookup_truthy c _ _ Hc), Hc. by destruct description.
Qed.

Lemma embedded_described e (r : record) :
  embedded e r → embedded_as_described e r.
Proof.
  intros (Htype & Hnode & Hcode & Hq & text & Htext & Hv).
  split_and!; try done.
  - unfold getitem in Hq. destruct (of_question e !! "text"); congruence.
  - intros description Hd Hne.
    by rewrite <- (approach_text_described _ _ _ _ Hd Hne Htext).
Qed.

(** X20: for every approach entry that is a non-empty node
    and has an entry of the code list zipped to it, the builder appends
    exactly one record, in loop order; when the description is not
    empty its embedding is that of the description followed by one
    separator and the code's content if the code has content, and of
    the description alone otherwise.  The builder returns whenever no
    lookup and no encoder call for these entries raises. *)
Theorem builder_one_record_per_paired_approach questions_data code_analysis s :
  Forall embeddable (flat_map present_entries questions_data) →
  ∃ s',
    _create_weighted_embeddings questions_data code_analysis s = (inr tt, s')
    ∧ Forall2 embedded_as_described
        (flat_map present_entries questions_data) (approach_embeddings s').
Proof.
  intros Hall. rewrite create_weighted_embeddings_fresh.
  destruct (runs_bundles questions_data)
    as [_ ((finished & rest & Hsplit & Hfin & Hrest) & Hok & _)].
  specialize (Hok Hall). rewrite Hok in *.
  eexists. split; [reflexivity|]. simpl.
  rewrite Hsplit, (Hrest eq_refl), app_nil_r.
  eapply Forall2_impl; [exact Hfin|]. apply embedded_described.
Qed.





(** C10: a code node whose content is the empty string is embedded as
    if there were no code: the text handed to the encoder is the
    description alone, with no separator after it, and the code node is
    still stored in the record. *)
Theorem empty_code_content_embeds_description_alone
    type q_data (a c : node) description v question_text s :
  a !! "description" = Some description →
  c !! "content" = Some "" →
  encode description = inr v →
  q q_data !! "text" = Some question_text →
  approach_text a (Some c) = inr description
  ∧ approach_text a (Some c) = approach_text a None
  ∧ embed_pair type q_data (Some a, Some c) s
    = (inr tt,
       extend s {| approach_embeddings :=
                     [{| question_id := question_text; approach_type := type;
                         embedding := v; approach_node := a;
                         code_node := Some c |}];
                   encode_log := [description];
                   run_log := []; stdout := [] |}).
Proof.
  intros Ha Hc Hv Hq.
  pose proof (approach_text_empty_content a c description Ha Hc) as Htext.
  split_and!; [done| |].
  - rewrite Htext. unfold approach_text, getitem. rewrite Ha. simpl.
    by destruct description.
  - rewrite writer_like_embed_pair. simpl.
    rewrite (lookup_truthy a _ _ Ha).
    unfold bind, lift, model_encode, append_record, getitem. simpl.
    by rewrite Htext, Hv, Hq.
Qed.

End BuilderTheory.

(** * The facade *)

Section FacadeTheory.

Context {R : Type} {dim : nat}.
Variable rzero : R.
Variables radd rmul : R → R → R.
Variable rltb : R → R → bool.
Variable session_run : list string → exn + list question_bundle.
Variable encode : string → exn + vec R dim.

Local Abbreviation state := (@search_state R dim).
Local Abbreviation init := (@init_state R dim).
Local Abbreviation embed_bundle := (embed_bundle encode).
Local Abbreviation _create_weighted_embeddings :=
  (_create_weighted_embeddings encode).
Local Abbreviation fetch_related_approaches :=
  (fetch_related_approaches rzero radd rmul rltb).
Local Abbreviation find_similar_approaches :=
  (find_similar_approaches rzero radd rmul rltb session_run encode).
Local Abbreviation calls_clean := (calls_clean encode).
Local Abbreviation raised_by_last_call := (raised_by_last_call encode).

Implicit Types (s : state) (scope : list string) (k : Z).

(** The state with another record list in [self.approach_embeddings]. *)
Local Abbreviation holding s records :=
  {| approach_embeddings := records; encode_log := encode_log s;
     run_log := run_log s; stdout := stdout s |}.

Local Arguments for_each : simpl never.

Ltac enter_search :=
  unfold find_similar_approaches, _fetch_questions_by_subtopics,
    print_no_questions, model_encode, gets, ret, bind;
  simpl.

Lemma fetch_related_approaches_reads_records s1 s2 query k types :
  approach_embeddings s1 = approach_embeddings s2 →
  fetch_related_approaches s1 query k types
  = fetch_related_approaches s2 query k types.
Proof. unfold fetch_related_approaches. by intros ->. Qed.

(** C6: when the graph fetch returns no bundle, the facade returns the
    empty list at once: the encoder is not called, for no candidate
    and not for the query; the only traces are the one graph query and
    the printed line. *)
Theorem empty_fetch_returns_without_encoding query_text code_analysis scope k s :
  session_run scope = inr [] →
  find_similar_approaches query_text code_analysis scope k s
  = (inr [],
     {| approach_embeddings := approach_embeddings s;
        encode_log := encode_log s;
        run_log := run_log s ++ [scope];
        stdout := stdout s ++ [scope] |}).
Proof. intros Hrun. enter_search. by rewrite Hrun. Qed.

(** The encoder calls of a search all returned, unless the last one
    raised what the search raises. *)
Lemma search_calls query_text code_analysis scope k s :
  ∃ calls,
    encode_log (find_similar_approaches query_text code_analysis scope k s).2
    = encode_log s ++ calls
    ∧ (calls_clean calls
       ∨ raised_by_last_call
           (find_similar_approaches query_text code_analysis scope k s).1 calls).
Proof.
  enter_search.
  destruct (session_run scope) as [e|[|b bs]]; simpl.
  - exists []. rewrite app_nil_r. split; [done|]. left. constructor.
  - exists []. rewrite app_nil_r. split; [done|]. left. constructor.
  - rewrite create_weighted_embeddings_fresh.
    destruct (runs_bundles encode (b :: bs)) as [_ (_ & _ & Hcalls & _)].
    destruct (for_each embed_bundle (b :: bs) init) as [[e|[]] d]; simpl in *.
    + exists (encode_log d). split; [done|].
      destruct Hcalls as [?|(pre & t & x & ? & ? & ? & [= <-])]; [by left|].
      right. by exists pre, t, e.
    + apply calls_clean_of_returned in Hcalls.
      exists (encode_log d ++ [query_text]). rewrite app_assoc.
      destruct (encode query_text) as [e|v] eqn:Hq; simpl; (split; [done|]).
      * right. by exists (encode_log d), query_text, e.
      * left. apply Forall_app. split; [done|]. repeat constructor. eauto.
Qed.

Lemma failed_call_is_the_outcome {A : Type} (res : exn + A) calls t (e : exn) :
  calls_clean calls ∨ raised_by_last_call res calls →
  t ∈ calls → encode t = inl e →
  res = inl e ∧ ∃ pre, calls = pre ++ [t] ∧ t ∉ pre.
Proof.
  intros Hcalls Hin Ht.
  assert (Hclean : ∀ l, calls_clean l → t ∉ l).
  { intros l Hl Htl. unfold calls_clean in Hl. rewrite Forall_forall in Hl.
    destruct (Hl t Htl) as [v Hv]. congruence. }
  destruct Hcalls as [Hall|(pre & t0 & e0 & -> & Hpre & Ht0 & ->)].
  - by destruct (Hclean _ Hall).
  - apply elem_of_app in Hin as [Hin|Hin].
    + by destruct (Hclean _ Hpre).
    + apply list_elem_of_singleton in Hin as ->.
      split; [congruence|]. exists pre. split; [done|]. by apply Hclean.
Qed.

(** C8: a failure of the graph fetch or of an encoder call is what the
    search raises: the fetch is run once and its exception comes out
    with nothing encoded or printed; an encoder call that raised is the
    last call made, was made once, and its exception is the outcome;
    the only thing ever printed is the line of the empty fetch, which
    returns the empty list. *)
Theorem failures_reach_the_caller query_text code_analysis scope k s res s' :
  find_similar_approaches query_text code_analysis scope k s = (res, s') →
  run_log s' = run_log s ++ [scope]
  ∧ (∀ e, session_run scope = inl e →
          res = inl e ∧ encode_log s' = encode_log s ∧ stdout s' = stdout s
          ∧ approach_embeddings s' = approach_embeddings s)
  ∧ (∃ calls,
        encode_log s' = encode_log s ++ calls
        ∧ ∀ t e, t ∈ calls → encode t = inl e →
                 res = inl e ∧ ∃ pre, calls = pre ++ [t] ∧ t ∉ pre)
  ∧ (stdout s' = stdout s
     ∨ (stdout s' = stdout s ++ [scope] ∧ session_run scope = inr []
        ∧ res = inr [])).
Proof.
  intros Hsearch. split_and!.
  - revert Hsearch. enter_search.
    destruct (session_run scope) as [e|[|b bs]]; simpl;
      [by intros [= <- <-]..|].
    rewrite create_weighted_embeddings_fresh.
    destruct (for_each embed_bundle (b :: bs) init) as [[e|[]] d]; simpl;
      [by intros [= <- <-]|].
    destruct (encode query_text); simpl; by intros [= <- <-].
  - intros e He. revert Hsearch. enter_search. rewrite He.
    by intros [= <- <-].
  - destruct (search_calls query_text code_analysis scope k s)
      as (calls & Hlog & Hcalls).
    rewrite Hsearch in Hlog, Hcalls. simpl in *.
    exists calls. split; [done|]. intros t e.
    by apply failed_call_is_the_outcome.
  - revert Hsearch. enter_search.
    destruct (session_run scope) as [e|[|b bs]]; simpl.
    + intros [= <- <-]. by left.
    + intros [= <- <-]. by right.
    + rewrite create_weighted_embeddings_fresh.
      destruct (for_each embed_bundle (b :: bs) init) as [[e|[]] d]; simpl;
        [intros [= <- <-]; by left|].
      destruct (encode query_text); simpl; intros [= <- <-]; by left.
Qed.

(** C7 (as amended): the builder starts every build from an empty
    record list, so what it builds, and what a search returns, does not
    depend on the records an earlier query left behind, and besides the
    record list it touches only the encoder; the records are
    not dropped when the query completes: after a search that fetched
    bundles the instance holds the records built for it, and a search
    that fetched none or whose fetch raised leaves the records it found
    in place. *)
Theorem records_rebuilt_per_build_and_kept
    questions_data query_text code_analysis scope k s earlier :
  _create_weighted_embeddings questions_data code_analysis (holding s earlier)
  = _create_weighted_embeddings questions_data code_analysis s
  ∧ run_log (_create_weighted_embeddings questions_data code_analysis s).2
    = run_log s
  ∧ stdout (_create_weighted_embeddings questions_data code_analysis s).2
    = stdout s
  ∧ (find_similar_approaches query_text code_analysis scope k (holding s earlier)).1
    = (find_similar_approaches query_text code_analysis scope k s).1
  ∧ (∀ b bs, session_run scope = inr (b :: bs) →
       approach_embeddings
         (find_similar_approaches query_text code_analysis scope k s).2
       = approach_embeddings
           (_create_weighted_embeddings (b :: bs) code_analysis s).2)
  ∧ ((session_run scope = inr [] ∨ ∃ e, session_run scope = inl e) →
       approach_embeddings
         (find_similar_approaches query_text code_analysis scope k s).2
       = approach_embeddings s).
Proof.
  split_and!.
  - by rewrite !create_weighted_embeddings_fresh.
  - by rewrite create_weighted_embeddings_fresh.
  - by rewrite create_weighted_embeddings_fresh.
  - enter_search.
    destruct (session_run scope) as [e|[|b bs]]; simpl; [done..|].
    rewrite !create_weighted_embeddings_fresh. simpl.
    destruct (for_each embed_bundle (b :: bs) init) as [[e|[]] d]; simpl;
      [done|].
    by destruct (encode query_text).
  - intros b bs Hrun. enter_search. rewrite Hrun. simpl.
    rewrite !create_weighted_embeddings_fresh. simpl.
    destruct (for_each embed_bundle (b :: bs) init) as [[e|[]] d]; simpl;
      [done|].
    by destruct (encode query_text).
  - intros [Hrun|[e Hrun]]; enter_search; by rewrite Hrun.
Qed.

End FacadeTheory.

(** * The theorems at work on the concrete world *)



Example scenario_a_ranks_prefix_sums_first :
  (Scenario.search "prefix sums" "" ["Array"] 1 Scenario.start).1
  = inr [{| r_question_id := "Two Sum";
            r_approach_node := Scenario.prefix_sums;
            r_code_node := Some Scenario.prefix_code;
            similarity_score := 254 |}].
Proof. vm_compute. reflexivity. Qed.

Example ties_keep_builder_order :
  map (λ it, approach_type (approach_data it))
    (Scenario.rank (Scenario.holding Scenario.three) [# 1; 0] 3 None)
  = ["optimized"; "approached"; "improved"].
Proof. vm_compute. reflexivity. Qed.

Example negative_top_k_drops_the_tail :
  map (λ it, approach_type (approach_data it))
    (Scenario.rank (Scenario.holding Scenario.three) [# 1; 0] (-1) None)
  = ["optimized"; "approached"].
Proof. vm_compute. reflexivity. Qed.

Example encoder_failure_stops_the_search :
  Scenario.search "x" "" ["Broken"] 5 Scenario.start
  = (inl (EmbeddingFailure "encoder down"),
     {| approach_embeddings := []; encode_log := ["<fail>"];
        run_log := [["Broken"]]; stdout := [] |}).
Proof. vm_compute. reflexivity. Qed.

Example missing_description_raises :
  Scenario.build
    [Scenario.bundle [Some Scenario.no_description] [] [] [None] [] []]
    "" Scenario.start
  = (inl (KeyError "description"), Scenario.start).
Proof. vm_compute. reflexivity. Qed.


Lemma scenario_a_embeddable :
  Forall (embeddable Scenario.encode) (flat_map present_entries [Scenario.scenario_a]).
Proof.
  repeat constructor; do 3 eexists; split_and!; vm_compute; reflexivity.
Qed.

Lemma builder_one_record_per_paired_approach_witness :
  Forall (embeddable Scenario.encode) (flat_map present_entries [Scenario.scenario_a])
  ∧ ∃ s',
      Scenario.build [Scenario.scenario_a] "" Scenario.start = (inr tt, s')
      ∧ Forall2 (embedded_as_described Scenario.encode)
          (flat_map present_entries [Scenario.scenario_a])
          (approach_embeddings s').
Proof.
  split; [exact scenario_a_embeddable|].
  apply (builder_one_record_per_paired_approach Scenario.encode
           [Scenario.scenario_a] "" Scenario.start).
  exact scenario_a_embeddable.
Defined.

Lemma empty_code_content_embeds_description_alone_witness :
  Scenario.two_pointers !! "description" = Some "use two pointers"
  ∧ Scenario.empty_code !! "content" = Some ""
  ∧ Scenario.encode "use two pointers" = inr [# 16; 1]
  ∧ q Scenario.scenario_a !! "text" = Some "Two Sum"
  ∧ approach_text Scenario.two_pointers (Some Scenario.empty_code)
    = inr "use two pointers".
Proof.
  split_and!; [vm_compute; reflexivity..|].
  destruct (empty_code_content_embeds_description_alone Scenario.encode
              "improved" Scenario.scenario_a
              Scenario.two_pointers Scenario.empty_code
              "use two pointers" [# 16; 1] "Two Sum" Scenario.start)
    as [Htext _]; [vm_compute; reflexivity..|].
  exact Htext.
Defined.

Lemma empty_fetch_returns_without_encoding_witness :
  Scenario.session_run ["NonexistentTag"] = inr []
  ∧ Scenario.search "anything" "" ["NonexistentTag"] 5 Scenario.start
    = (inr [],
       {| approach_embeddings := []; encode_log := [];
          run_log := [["NonexistentTag"]]; stdout := [["NonexistentTag"]] |}).
Proof.
  split; [vm_compute; reflexivity|].
  apply (empty_fetch_returns_without_encoding 0 Z.add Z.mul Z.ltb
           Scenario.session_run Scenario.encode
           "anything" "" ["NonexistentTag"] 5 Scenario.start).
  vm_compute; reflexivity.
Defined.

Lemma failures_reach_the_caller_witness :
  Scenario.search "anything" "" ["Offline"] 5 Scenario.start
  = (inl (StoreUnavailable "connection refused"),
     {| approach_embeddings := []; encode_log := [];
        run_log := [["Offline"]]; stdout := [] |})
  ∧ run_log {| approach_embeddings := @nil (@embedding_record Z 2);
               encode_log := []; run_log := [["Offline"]]; stdout := [] |}
    = run_log Scenario.start ++ [["Offline"]].
Proof.
  split; [vm_compute; reflexivity|].
  destruct (failures_reach_the_caller 0 Z.add Z.mul Z.ltb
              Scenario.session_run Scenario.encode
              "anything" "" ["Offline"] 5 Scenario.start
              (inl (StoreUnavailable "connection refused"))
              {| approach_embeddings := []; encode_log := [];
                 run_log := [["Offline"]]; stdout := [] |})
    as (Hrun & _); [vm_compute; reflexivity|].
  exact Hrun.
Defined.

(** C1: the code at the failing input.  An approach with a description
    whose code list is empty (an approach without code, as [collect]
    returns it) is in [approachedApproaches], and the builder returns
    without a record for it and without a call to the encoder: the
    [zip] stops at the end of the code list.  A search over that bundle
    encodes the query alone and returns nothing. *)
Lemma unpaired_approach_gets_no_record :
  Some Scenario.two_pointers ∈ approachedApproaches Scenario.unpaired
  ∧ Scenario.two_pointers !! "description" = Some "use two pointers"
  ∧ Scenario.build [Scenario.unpaired] "" Scenario.start
    = (inr tt,
       {| approach_embeddings := []; encode_log := [];
          run_log := []; stdout := [] |})
  ∧ Scenario.search "two pointers" "" ["Graphs"] 5 Scenario.start
    = (inr [],
       {| approach_embeddings := []; encode_log := ["two pointers"];
          run_log := [["Graphs"]]; stdout := [] |}).
Proof. split_and!; [constructor|vm_compute; reflexivity..]. Qed.

(** When the one code of a bundle belongs to its second approach, the
    [zip] pairs it with the first: the first approach is embedded with
    the other's code and the second gets no record. *)
Example misaligned_code_goes_to_the_first_approach :
  Scenario.build [Scenario.misaligned] "" Scenario.start
  = (inr tt,
     {| approach_embeddings :=
          [{| question_id := "Two Sum"; approach_type := "approached";
              embedding := [# 24; 1];
              approach_node := Scenario.two_pointers;
              code_node := Some Scenario.prefix_code |}];
        encode_log := ["use two pointers sum=..."];
        run_log := []; stdout := [] |}).
Proof. vm_compute. reflexivity. Qed.




(** C3, as first stated, fails: three finite embeddings and a finite
    query; the dot product of the second overflows to [inf - inf], a
    NaN; every [<] test that involves it is false, so the sort leaves
    the records where they are ([list.sort] too: it takes the reversed
    list for one run), and the first result scores strictly below the
    third. *)
Lemma nan_score_breaks_the_order :
  map approach_data
    (Binary64.rank (Binary64.holding Binary64.three) Binary64.big_query 3 None)
  = [Binary64.low; Binary64.overflowing; Binary64.high]
  ∧ PrimFloat.ltb
      (Binary64.dot Binary64.big_query (embedding Binary64.low))
      (Binary64.dot Binary64.big_query (embedding Binary64.high)) = true
  ∧ ¬ non_increasing PrimFloat.ltb
        (Binary64.rank (Binary64.holding Binary64.three)
           Binary64.big_query 3 None).
Proof.
  split_and!; [vm_compute; reflexivity..|].
  intros Hsorted. unfold non_increasing in Hsorted.
  remember (Binary64.rank (Binary64.holding Binary64.three)
              Binary64.big_query 3 None) as ranked eqn:Hranked.
  vm_compute in Hranked. subst ranked.
  apply StronglySorted_inv in Hsorted as [_ Hfirst].
  apply Forall_cons in Hfirst as [_ Hfirst].
  apply Forall_cons in Hfirst as [Hthird _].
  vm_compute in Hthird. discriminate.
Qed.

(** C9, as first stated, fails: on the same records and query a
    negative [top_k] removes the last item of the list the sort left
    in place, and that is the record with the highest score. *)
Lemma negative_top_k_drops_the_best :
  map approach_data
    (Binary64.rank (Binary64.holding Binary64.three)
       Binary64.big_query (-1) None)
  = [Binary64.low; Binary64.overflowing]
  ∧ PrimFloat.ltb
      (Binary64.dot Binary64.big_query (embedding Binary64.low))
      (Binary64.dot Binary64.big_query (embedding Binary64.high)) = true
  ∧ PrimFloat.ltb
      (Binary64.dot Binary64.big_query (embedding Binary64.overflowing))
      (Binary64.dot Binary64.big_query (embedding Binary64.high)) = false.
Proof. split_and!; vm_compute; reflexivity. Qed.

Lemma four_scores_comparable :
  comparable PrimFloat.ltb
    (map (λ r, Binary64.dot Binary64.unit_query (embedding r))
       (List.filter (type_selected None) Binary64.four)).
Proof.
  split.
  - intros a b Ha%list_elem_of_In Hb%list_elem_of_In.
    vm_compute in Ha, Hb.
    destruct Ha as [<-|[<-|[<-|[<-|[]]]]], Hb as [<-|[<-|[<-|[<-|[]]]]];
      vm_compute; congruence.
  - intros a b c Ha%list_elem_of_In Hb%list_elem_of_In Hc%list_elem_of_In.
    vm_compute in Ha, Hb, Hc.
    destruct Ha as [<-|[<-|[<-|[<-|[]]]]], Hb as [<-|[<-|[<-|[<-|[]]]]],
      Hc as [<-|[<-|[<-|[<-|[]]]]];
      vm_compute; congruence.
Qed.

Example binary64_ties_keep_record_order :
  map (λ it, (approach_type (approach_data it), similarity it))
    (Binary64.rank (Binary64.holding Binary64.four) Binary64.unit_query 4 None)
  = [("optimized", 0x1p700%float); ("improved", 2%float);
     ("approached", 1%float); ("approached", 1%float)]
  ∧ map approach_data
      (Binary64.rank (Binary64.holding Binary64.four)
         Binary64.unit_query (-2) None)
    = [Binary64.overflowing; Binary64.high].
Proof. split; vm_compute; reflexivity. Qed.

Lemma ranker_descending_and_stable_witness :
  comparable PrimFloat.ltb
    (map (λ r, Binary64.dot Binary64.unit_query (embedding r))
       (List.filter (type_selected None) Binary64.four))
  ∧ non_increasing PrimFloat.ltb
      (Binary64.rank (Binary64.holding Binary64.four)
         Binary64.unit_query 4 None).
Proof.
  split; [exact four_scores_comparable|].
  destruct (ranker_descending_and_stable 0%float PrimFloat.add PrimFloat.mul
              PrimFloat.ltb (Binary64.holding Binary64.four)
              Binary64.unit_query 4 None four_scores_comparable)
    as [Hsorted _].
  exact Hsorted.
Defined.

Lemma ranker_nonpositive_top_k_witness :
  approach_embeddings (Binary64.holding Binary64.four) ≠ []
  ∧ -2 < 0
  ∧ comparable PrimFloat.ltb
      (map (λ r, Binary64.dot Binary64.unit_query (embedding r))
         (List.filter (type_selected None) Binary64.four))
  ∧ ∃ removed,
      Binary64.rank (Binary64.holding Binary64.four)
        Binary64.unit_query (-2) None ++ removed
      ≡ₚ map (scored 0%float PrimFloat.add PrimFloat.mul Binary64.unit_query)
           (List.filter (type_selected None) Binary64.four)
      ∧ length removed = 2%nat
      ∧ non_increasing PrimFloat.ltb
          (Binary64.rank (Binary64.holding Binary64.four)
             Binary64.unit_query (-2) None ++ removed).
Proof.
  split; [discriminate|]. split; [lia|].
  split; [exact four_scores_comparable|].
  destruct (ranker_nonpositive_top_k 0%float PrimFloat.add PrimFloat.mul
              PrimFloat.ltb (Binary64.holding Binary64.four)
              Binary64.unit_query (-2) None)
    as [_ Hnegative]; [discriminate|].
  destruct Hnegative as (removed & _ & Hperm & Hlen & Horder); [lia|].
  destruct (Horder four_scores_comparable) as [Hsorted _].
  exists removed. split_and!; [exact Hperm|exact Hlen|exact Hsorted].
Defined.

(** C7, as first stated, fails: the records built for a query are
    still on the instance when it has completed, they are there
    throughout a later query that fetches nothing, and the ranker then
    still answers from them. *)
Lemma records_outlive_their_query :
  length (approach_embeddings Scenario.after_first) = 2%nat
  ∧ (Scenario.search "another problem" "" ["NonexistentTag"] 1
       Scenario.after_first).1 = inr []
  ∧ approach_embeddings
      (Scenario.search "another problem" "" ["NonexistentTag"] 1
         Scenario.after_first).2
    = approach_embeddings Scenario.after_first
  ∧ map (λ it, approach_node (approach_data it))
      (Scenario.rank
         (Scenario.search "another problem" "" ["NonexistentTag"] 1
            Scenario.after_first).2
         [# 1; 0] 1 None)
    = [Scenario.prefix_sums].
Proof. split_and!; vm_compute; reflexivity. Qed.

(** * More on the ranker *)

Section RankerSelection.

Context {R : Type} {dim : nat}.
Variable rzero : R.
Variables radd rmul : R → R → R.
Variable rltb : R → R → bool.

Local Abbreviation record := (@embedding_record R dim).
Local Abbreviation scored := (scored rzero radd rmul).
Local Abbreviation score_records := (score_records rzero radd rmul).
Local Abbreviation sort_by_similarity_desc := (sort_by_similarity_desc rltb).
Local Abbreviation fetch_related_approaches :=
  (fetch_related_approaches rzero radd rmul rltb).

Implicit Types (self : @search_state R dim) (query : vec R dim) (k : Z)
  (types : option (gset string)).

(** The state that holds exactly [records]; the logs play no part in
    ranking. *)
Local Abbreviation holding self records :=
  {| approach_embeddings := records; encode_log := encode_log self;
     run_log := run_log self; stdout := stdout self |}.

(** X1: The ranker returns scored records and nothing else, none more often
    than the record list holds it: the result is a sub-multiset of the
    items of the records that pass the type filter. *)
Theorem ranker_returns_scored_records_only self query k types :
  fetch_related_approaches self query k types
  ⊆+ map (scored query)
       (List.filter (type_selected types) (approach_embeddings self)).
Proof.
  rewrite (fetch_related_approaches_unfold rzero radd rmul rltb).
  rewrite <- score_records_filter.
  destruct (slice_to_take
              (sort_by_similarity_desc
                 (score_records query types (approach_embeddings self)))
              k) as [n ->].
  etransitivity; [apply sublist_submseteq, sublist_take|].
  apply Permutation_submseteq, sort_perm.
Qed.

(** X2: A smaller non-negative [top_k] gives a prefix of what a larger one
    gives: asking for more never reorders or replaces the items already
    returned. *)
Theorem ranker_smaller_k_is_a_prefix self query k1 k2 types :
  0 ≤ k1 → k1 ≤ k2 →
  fetch_related_approaches self query k1 types
  `prefix_of` fetch_related_approaches self query k2 types.
Proof.
  intros H1 H2. rewrite !(fetch_related_approaches_unfold rzero radd rmul rltb).
  unfold slice_to.
  destruct (Z.ltb_spec k1 0); [lia|]. destruct (Z.ltb_spec k2 0); [lia|].
  set (ranked := sort_by_similarity_desc _).
  replace (take (Z.to_nat k1) ranked)
    with (take (Z.to_nat k1) (take (Z.to_nat k2) ranked)).
  - apply prefix_take.
  - rewrite take_take. f_equal. lia.
Qed.

(** X3: Ranking with a type filter is ranking, without a filter, an
    instance that holds only the records of those types. *)
Theorem ranker_filter_is_ranking_the_selection self query k types :
  fetch_related_approaches self query k types
  = fetch_related_approaches
      (holding self (List.filter (type_selected types) (approach_embeddings self)))
      query k None.
Proof.
  rewrite !(fetch_related_approaches_unfold rzero radd rmul rltb). simpl.
  rewrite !score_records_filter. do 3 f_equal.
  induction (List.filter (type_selected types) (approach_embeddings self))
    as [|r l IH]; simpl; [done|]. by rewrite <- IH.
Qed.

Section Ordered.

Hypothesis rlt_asym : ∀ a b, rltb a b = true → rltb b a = false.
Hypothesis rlt_negtrans :
  ∀ a b c, rltb a b = false → rltb b c = false → rltb a c = false.


End Ordered.

End RankerSelection.

(** * More on the builder *)

Section BuilderAccounting.

Context {R : Type} {dim : nat}.
Variable encode : string → exn + vec R dim.

Local Abbreviation state := (@search_state R dim).
Local Abbreviation record := (@embedding_record R dim).
Local Abbreviation init := (@init_state R dim).
Local Abbreviation M := (@M R dim).
Local Abbreviation embed_pair := (embed_pair encode).
Local Abbreviation embed_bundle := (embed_bundle encode).
Local Abbreviation _create_weighted_embeddings :=
  (_create_weighted_embeddings encode).
Local Abbreviation embedded := (embedded encode).
Local Abbreviation embeddable := (embeddable encode).

Implicit Types (s d : state) (entries : list entry).

(** *** Invariants indexed by the entries, along the loops *)

Section Indexed.

Variable P : list entry → exn + unit → state → Prop.

Hypothesis P_nil : P [] (inr tt) init.
Hypothesis P_returned : ∀ entries1 entries2 res d1 d2,
  P entries1 (inr tt) d1 → P entries2 res d2 →
  P (entries1 ++ entries2) res (extend d1 d2).
Hypothesis P_raised : ∀ entries1 entries2 (x : exn) d1,
  P entries1 (inl x) d1 → P (entries1 ++ entries2) (inl x) d1.

Local Abbreviation keeps := (keeps P).

Lemma keeps_seq (m1 m2 : M unit) entries1 entries2 :
  keeps m1 entries1 → keeps m2 entries2 →
  keeps (bind m1 (λ _, m2)) (entries1 ++ entries2).
Proof.
  intros [Hw1 H1] [Hw2 H2]. split; [by apply writer_like_bind|].
  rewrite bind_init by done.
  destruct (m1 init) as [[x|[]] d1]; simpl in *; eauto.
Qed.

Lemma keeps_for_each {A : Type} (body : A → M unit)
    (entries_of : A → list entry) l :
  (∀ x, keeps (body x) (entries_of x)) →
  keeps (for_each body l) (flat_map entries_of l).
Proof.
  intros Hbody. induction l as [|x l IH]; simpl.
  - split; [apply writer_like_ret|exact P_nil].
  - by apply keeps_seq.
Qed.

Lemma keeps_bundles questions_data :
  (∀ type q_data pair,
      P (present_pair (q q_data) type pair)
        (embed_pair type q_data pair init).1
        (embed_pair type q_data pair init).2) →
  keeps (for_each embed_bundle questions_data)
        (flat_map present_entries questions_data).
Proof.
  intros Hpair. apply keeps_for_each. intros q_data.
  unfold embed_bundle, present_entries.
  repeat apply keeps_seq; apply keeps_for_each; intros pair;
    (split; [apply writer_like_embed_pair|apply Hpair]).
Qed.

End Indexed.

(** *** The encoder calls of the builder *)

Ltac settle_calls :=
  split_and!; first [done | simpl; lia | apply prefix_nil | idtac].

Lemma calls_outcome_pair type q_data pair :
  calls_outcome (present_pair (q q_data) type pair)
    (embed_pair type q_data pair init).1 (embed_pair type q_data pair init).2.
Proof.
  destruct pair as [[a|] code]; unfold present_pair, calls_outcome; simpl;
    [|settle_calls].
  destruct (dict_truthy a); [|settle_calls].
  unfold bind, lift, model_encode, append_record, entry_text. simpl.
  destruct (approach_text a code) as [x|text] eqn:Htext; simpl;
    [settle_calls|].
  destruct (encode text) as [x|v]; simpl; [settle_calls|].
  destruct (getitem (q q_data) "text") as [x|question_text]; simpl;
    settle_calls.
Qed.

Lemma calls_outcome_bundles questions_data :
  calls_outcome (flat_map present_entries questions_data)
    (for_each embed_bundle questions_data init).1
    (for_each embed_bundle questions_data init).2.
Proof.
  apply (keeps_bundles calls_outcome).
  - unfold calls_outcome. simpl. settle_calls.
  - intros entries1 entries2 res d1 d2
      (_ & Hall1 & _ & _ & Hlen1) (Hpre2 & Hall2 & Hle2 & Hge2 & Hlen2).
    specialize (Hall1 eq_refl). specialize (Hlen1 eq_refl).
    unfold calls_outcome. simpl.
    rewrite map_app, !length_app, Hall1. split_and!.
    + by apply prefix_app.
    + intros Hres. by rewrite (Hall2 Hres).
    + rewrite <- Hall1. lia.
    + rewrite <- Hall1. lia.
    + intros Hres. rewrite <- Hall1. specialize (Hlen2 Hres). lia.
  - intros entries1 entries2 x d1 (Hpre & _ & Hle & Hge & _).
    unfold calls_outcome. rewrite map_app.
    split_and!; [by apply prefix_app_r|done|done|done|done].
  - apply calls_outcome_pair.
Qed.

(** X5: The builder sends the encoder the texts of the approach entries in
    loop order, each once and nothing else, as far as it gets: all of
    them when it returns, and then as many as it built records; when it
    raises, at most one call has no record to show for it. *)
Theorem builder_encodes_each_entry_once questions_data code_analysis s :
  ∃ calls,
    encode_log (_create_weighted_embeddings questions_data code_analysis s).2
    = encode_log s ++ calls
    ∧ calls `prefix_of` map entry_text (flat_map present_entries questions_data)
    ∧ ((_create_weighted_embeddings questions_data code_analysis s).1 = inr tt →
       calls = map entry_text (flat_map present_entries questions_data)
       ∧ length calls
         = length (approach_embeddings
                     (_create_weighted_embeddings questions_data code_analysis s).2))
    ∧ (length (approach_embeddings
                 (_create_weighted_embeddings questions_data code_analysis s).2)
       ≤ length calls)%nat
    ∧ (length calls
       ≤ S (length (approach_embeddings
                      (_create_weighted_embeddings questions_data code_analysis s).2)))%nat.
Proof.
  rewrite create_weighted_embeddings_fresh. simpl.
  destruct (calls_outcome_bundles questions_data)
    as (Hpre & Hall & Hle & Hge & Hlen).
  eexists. split_and!; [reflexivity|done| |done|done].
  intros Hres. split; [by apply Hall|]. symmetry. by apply Hlen.
Qed.

End BuilderAccounting.

Section BuilderStops.

Context {R : Type} {dim : nat}.
Variable rzero : R.
Variables radd rmul : R → R → R.
Variable rltb : R → R → bool.
Variable encode : string → exn + vec R dim.

Local Abbreviation state := (@search_state R dim).
Local Abbreviation record := (@embedding_record R dim).
Local Abbreviation init := (@init_state R dim).
Local Abbreviation embed_pair := (embed_pair encode).
Local Abbreviation embed_bundle := (embed_bundle encode).
Local Abbreviation _create_weighted_embeddings :=
  (_create_weighted_embeddings encode).
Local Abbreviation embedded := (embedded encode).
Local Abbreviation embeddable := (embeddable encode).
Local Abbreviation entry_raises := (entry_raises encode).
Local Abbreviation stop_outcome := (stop_outcome encode).
Local Abbreviation score_records := (score_records rzero radd rmul).
Local Abbreviation fetch_related_approaches :=
  (fetch_related_approaches rzero radd rmul rltb).

Implicit Types (s d : state) (entries : list entry).

Lemma stop_outcome_pair type q_data pair :
  stop_outcome (present_pair (q q_data) type pair)
    (embed_pair type q_data pair init).1 (embed_pair type q_data pair init).2.
Proof.
  destruct pair as [[a|] code]; unfold present_pair; simpl;
    [|left; split; [done|constructor]].
  destruct (dict_truthy a); [|left; split; [done|constructor]].
  set (e := {| of_question := q q_data; of_type := type;
               of_approach := a; of_code := code |}).
  unfold bind, lift, model_encode, append_record. simpl.
  destruct (approach_text a code) as [x|text] eqn:Htext; simpl.
  { right. exists x, [], e, []. split_and!; [done|done|constructor|by left]. }
  destruct (encode text) as [x|v] eqn:Hv; simpl.
  { right. exists x, [], e, [].
    split_and!; [done|done|constructor|right; eauto]. }
  destruct (getitem (q q_data) "text") as [x|question_text] eqn:Hq; simpl.
  { right. exists x, [], e, [].
    split_and!; [done|done|constructor|right; eauto 6]. }
  left. split; [done|]. repeat constructor; simpl; eauto.
Qed.

Lemma stop_outcome_bundles questions_data :
  stop_outcome (flat_map present_entries questions_data)
    (for_each embed_bundle questions_data init).1
    (for_each embed_bundle questions_data init).2.
Proof.
  apply (keeps_bundles encode stop_outcome).
  - left. split; [done|constructor].
  - intros entries1 entries2 res d1 d2 [[_ H1]|(y & ? & ? & ? & [=] & _)]
      [[-> H2]|(x & finished & next & rest & -> & -> & H2 & Hx)].
    + left. split; [done|]. simpl. by apply Forall2_app.
    + right. exists x, (entries1 ++ finished), next, rest.
      split_and!; [done|by rewrite app_assoc| |done].
      simpl. by apply Forall2_app.
  - intros entries1 entries2 x d1
      [[[=] _]|(x' & finished & next & rest & [= <-] & -> & H1 & Hx)].
    right. exists x, finished, next, (rest ++ entries2).
    split_and!; [done|by rewrite <- app_assoc|done|done].
  - apply stop_outcome_pair.
Qed.

Lemma entry_raises_not_embeddable e x : entry_raises e x → ¬ embeddable e.
Proof.
  intros Hx (question_text & text & v & Hq & Htext & Hv).
  destruct Hx as [Hx|(text' & Htext' & [Hx|(v' & _ & Hx)])]; congruence.
Qed.

(** X6: A build that raises stops at the first approach entry for which
    something raises and raises just that; the records of the entries
    before it are in [self.approach_embeddings] (the failed build is not
    rolled back), and no later entry was touched. *)
Theorem failed_build_stops_at_first_failure questions_data code_analysis s x s' :
  _create_weighted_embeddings questions_data code_analysis s = (inl x, s') →
  ∃ finished next rest,
    flat_map present_entries questions_data = finished ++ next :: rest
    ∧ Forall2 embedded finished (approach_embeddings s')
    ∧ entry_raises next x
    ∧ ¬ embeddable next
    ∧ (length (encode_log s')
       ≤ length (encode_log s) + S (length finished))%nat.
Proof.
  rewrite create_weighted_embeddings_fresh. intros [= Hres <-]. simpl.
  destruct (stop_outcome_bundles questions_data)
    as [[Hok _]|(x' & finished & next & rest & Hx' & Hsplit & Hfin & Hraises)];
    [congruence|].
  rewrite Hres in Hx'. injection Hx' as <-.
  exists finished, next, rest.
  split_and!; [done|done|done|by eapply entry_raises_not_embeddable|].
  destruct (calls_outcome_bundles encode questions_data)
    as (_ & _ & _ & Hge & _).
  rewrite length_app, (Forall2_length _ _ _ Hfin). lia.
Qed.

(** *** What is in the records *)

Lemma present_entries_types questions_data :
  Forall (λ e, of_type e ∈ ["approached"; "optimized"; "improved"])
    (flat_map present_entries questions_data).
Proof.
  assert (Hpair : ∀ question type pairs,
             type ∈ ["approached"; "optimized"; "improved"] →
             Forall (λ e, of_type e ∈ ["approached"; "optimized"; "improved"])
               (flat_map (present_pair question type) pairs)).
  { intros question type pairs Htype.
    induction pairs as [|[[a|] code] pairs IH]; simpl; [constructor| |done].
    unfold present_pair at 1. simpl.
    destruct (dict_truthy a); [by constructor|done]. }
  induction questions_data as [|q_data questions_data IH]; simpl; [constructor|].
  unfold present_entries. rewrite !Forall_app.
  split_and!; [apply Hpair..|done]; set_solver.
Qed.

Lemma built_records_of_entries questions_data code_analysis s :
  ∃ finished rest,
    flat_map present_entries questions_data = finished ++ rest
    ∧ Forall2 embedded finished
        (approach_embeddings
           (_create_weighted_embeddings questions_data code_analysis s).2).
Proof.
  rewrite create_weighted_embeddings_fresh. simpl.
  destruct (runs_bundles encode questions_data)
    as [_ ((finished & rest & Hsplit & Hfin & _) & _)].
  by exists finished, rest.
Qed.

(** X7: Whatever the builder leaves in [self.approach_embeddings], after a
    return or a raise, carries one of the three type literals; so a
    type filter that names all three ranks like no filter at all. *)
Theorem built_records_have_the_three_types questions_data code_analysis s :
  Forall (λ r, approach_type r ∈ ["approached"; "optimized"; "improved"])
    (approach_embeddings
       (_create_weighted_embeddings questions_data code_analysis s).2)
  ∧ ∀ query k,
      fetch_related_approaches
        (_create_weighted_embeddings questions_data code_analysis s).2
        query k (Some {[ "approached"; "optimized"; "improved" ]})
      = fetch_related_approaches
          (_create_weighted_embeddings questions_data code_analysis s).2
          query k None.
Proof.
  assert (Htypes :
    Forall (λ r, approach_type r ∈ ["approached"; "optimized"; "improved"])
      (approach_embeddings
         (_create_weighted_embeddings questions_data code_analysis s).2)).
  { destruct (built_records_of_entries questions_data code_analysis s)
      as (finished & rest & Hsplit & Hfin).
    pose proof (present_entries_types questions_data) as Hall.
    rewrite Hsplit in Hall. apply Forall_app in Hall as [Hall _].
    clear Hsplit. induction Hfin as [|e r ? ? (Ht & _) ? IH]; [constructor|].
    apply Forall_cons in Hall as [He Hall].
    constructor; [by rewrite Ht|by apply IH]. }
  split; [done|]. intros query k.
  rewrite !(fetch_related_approaches_unfold rzero radd rmul rltb).
  do 2 f_equal.
  induction Htypes as [|r l Hr _ IH]; simpl; [done|].
  rewrite IH. rewrite bool_decide_eq_true_2; [done|].
  rewrite !elem_of_union, !elem_of_singleton.
  rewrite !elem_of_cons, elem_of_nil in Hr.
  destruct Hr as [Hr|[Hr|[Hr|[]]]]; rewrite Hr; auto.
Qed.

(** X8: The builder appends at most one record per position at which both
    an approach list and its code list have an entry: whatever lies
    beyond the end of the shorter list is never embedded. *)
Theorem built_records_bounded_by_pairs questions_data code_analysis s :
  (length (approach_embeddings
             (_create_weighted_embeddings questions_data code_analysis s).2)
   ≤ sum_list (map paired_positions questions_data))%nat.
Proof.
  destruct (built_records_of_entries questions_data code_analysis s)
    as (finished & rest & Hsplit & Hfin).
  rewrite <- (Forall2_length _ _ _ Hfin).
  transitivity (length (flat_map present_entries questions_data));
    [rewrite Hsplit, length_app; lia|].
  assert (Hpair : ∀ question type pairs,
             (length (flat_map (present_pair question type) pairs)
              ≤ length pairs)%nat).
  { intros question type pairs.
    induction pairs as [|[[a|] code] pairs IH]; simpl; [done| |lia].
    rewrite length_app. unfold present_pair at 1. simpl.
    destruct (dict_truthy a); simpl; lia. }
  clear -Hpair.
  induction questions_data as [|q_data questions_data IH]; simpl; [done|].
  rewrite length_app. unfold present_entries at 1, paired_positions at 1.
  rewrite !length_app.
  pose proof (Hpair (q q_data) "approached"
                (zip (approachedApproaches q_data) (approachedCodes q_data))).
  pose proof (Hpair (q q_data) "optimized"
                (zip (optimizedApproaches q_data) (optimizedCodes q_data))).
  pose proof (Hpair (q q_data) "improved"
                (zip (improvedApproaches q_data) (improvedCodes q_data))).
  rewrite !length_zip in *. lia.
Qed.

(** X9: With an empty description the embedding input is the code's
    content alone, with no separator in front of it, and the empty
    string when there is no content either. *)
Theorem approach_text_of_empty_description (a : node) code :
  a !! "description" = Some "" →
  (∀ c, code = Some c → c ≠ ∅ → is_Some (c !! "content")) →
  approach_text a code = inr (code_content code).
Proof.
  intros Ha Hcode. unfold approach_text, getitem, code_content. rewrite Ha.
  destruct code as [c|]; simpl; [|done].
  destruct (dict_truthy c) eqn:Hc.
  - destruct (Hcode c eq_refl) as [content ->].
    { intros ->. by vm_compute in Hc. }
    simpl. by destruct content.
  - apply falsy_empty in Hc as ->. by rewrite lookup_empty.
Qed.

End BuilderStops.

(** * More on the facade *)

Section FacadeResults.

Context {R : Type} {dim : nat}.
Variable rzero : R.
Variables radd rmul : R → R → R.
Variable rltb : R → R → bool.
Variable session_run : list string → exn + list question_bundle.
Variable encode : string → exn + vec R dim.

Local Abbreviation state := (@search_state R dim).
Local Abbreviation init := (@init_state R dim).
Local Abbreviation embed_bundle := (embed_bundle encode).
Local Abbreviation embedded := (embedded encode).
Local Abbreviation scored := (scored rzero radd rmul).
Local Abbreviation score_records := (score_records rzero radd rmul).
Local Abbreviation sort_by_similarity_desc := (sort_by_similarity_desc rltb).
Local Abbreviation fetch_related_approaches :=
  (fetch_related_approaches rzero radd rmul rltb).
Local Abbreviation find_similar_approaches :=
  (find_similar_approaches rzero radd rmul rltb session_run encode).
Local Abbreviation result_of := (result_of rzero radd rmul encode).

Implicit Types (s : state) (scope : list string) (k : Z).

Local Arguments for_each : simpl never.

(** A search that returns either fetched nothing, or built all its
    records, encoded the query and ranked. *)
Lemma search_returned query_text code_analysis scope k s results s' :
  find_similar_approaches query_text code_analysis scope k s = (inr results, s') →
  (session_run scope = inr [] ∧ results = []
   ∧ encode_log s' = encode_log s)
  ∨ ∃ b bs d query_embedding,
      session_run scope = inr (b :: bs)
      ∧ for_each embed_bundle (b :: bs) init = (inr tt, d)
      ∧ encode query_text = inr query_embedding
      ∧ results
        = map to_result
            (slice_to
               (sort_by_similarity_desc
                  (score_records query_embedding None (approach_embeddings d)))
               k)
      ∧ approach_embeddings s' = approach_embeddings d
      ∧ encode_log s' = encode_log s ++ encode_log d ++ [query_text].
Proof.
  unfold find_similar_approaches, _fetch_questions_by_subtopics,
    print_no_questions, model_encode, gets, ret, bind.
  simpl.
  destruct (session_run scope) as [x|[|b bs]]; simpl; [done| |].
  { intros [= <- <-]. by left. }
  rewrite create_weighted_embeddings_fresh.
  destruct (for_each embed_bundle (b :: bs) init) as [[x|[]] d] eqn:Hbuild;
    simpl; [done|].
  destruct (encode query_text) as [x|query_embedding]; simpl; [done|].
  intros [= <- <-]. right. exists b, bs, d, query_embedding.
  rewrite (fetch_related_approaches_unfold rzero radd rmul rltb). simpl.
  split_and!; try done. by rewrite <- app_assoc.
Qed.

Lemma returned_records_embedded questions_data d :
  for_each embed_bundle questions_data init = (inr tt, d) →
  Forall2 embedded (flat_map present_entries questions_data)
    (approach_embeddings d)
  ∧ encode_log d = map entry_text (flat_map present_entries questions_data).
Proof.
  intros Hrun.
  destruct (runs_bundles encode questions_data)
    as [_ ((finished & rest & Hsplit & Hfin & Hrest) & _)].
  destruct (calls_outcome_bundles encode questions_data) as (_ & Hall & _).
  rewrite Hrun in *. simpl in *.
  split; [|by apply Hall].
  by rewrite Hsplit, (Hrest eq_refl), app_nil_r.
Qed.

Lemma search_returned_at_most_k query_text code_analysis scope k s results s' :
  0 ≤ k →
  find_similar_approaches query_text code_analysis scope k s = (inr results, s') →
  (length results ≤ Z.to_nat k)%nat.
Proof.
  intros Hk [(_ & -> & _)|(b & bs & d & qv & _ & _ & _ & -> & _)]%search_returned;
    [simpl; lia|].
  rewrite length_map, length_slice_to_nonneg by done. lia.
Qed.

(** X10: Every result of a search is an approach entry of the bundles
    fetched for the scope, with its code node and its question's text,
    and its score is the dot product of the encoded query with the
    encoded text of that entry: nothing from outside the scope, nothing
    made up. *)
Theorem search_results_come_from_the_scope
    query_text code_analysis scope k s results s' :
  find_similar_approaches query_text code_analysis scope k s = (inr results, s') →
  ∃ questions_data,
    session_run scope = inr questions_data
    ∧ Forall (result_of questions_data query_text) results.
Proof.
  intros [(Hrun & -> & _)|(b & bs & d & qv & Hrun & Hbuild & Hqv & -> & _)]
    %search_returned.
  { exists []. split; [done|constructor]. }
  exists (b :: bs). split; [done|].
  apply returned_records_embedded in Hbuild as [Hfin _].
  apply Forall_forall. intros r Hr.
  apply list_elem_of_In, in_map_iff in Hr as (it & <- & Hit).
  apply list_elem_of_In in Hit.
  destruct (slice_to_take
              (sort_by_similarity_desc
                 (score_records qv None (approach_embeddings d))) k)
    as [n Hn].
  simpl in Hit. rewrite Hn in Hit.
  apply (elem_of_submseteq _ (sort_by_similarity_desc
                                (score_records qv None (approach_embeddings d))))
    in Hit; [|apply sublist_submseteq, sublist_take].
  rewrite sort_perm, score_records_filter in Hit.
  apply list_elem_of_In, in_map_iff in Hit as (rec & <- & Hrec).
  apply filter_In in Hrec as [Hrec _]. apply list_elem_of_In in Hrec.
  apply list_elem_of_lookup in Hrec as [i Hi].
  destruct (Forall2_lookup_r _ _ _ _ _ Hfin Hi)
    as (e & He & Htype & Hnode & Hcode & Hq & text & Htext & Hv).
  exists e, qv, (embedding rec).
  assert (Hentry : entry_text e = text) by (unfold entry_text; by rewrite Htext).
  rewrite Hentry. simpl.
  split_and!; try done.
  - eapply list_elem_of_lookup_2, He.
  - unfold getitem in Hq. destruct (of_question e !! "text"); congruence.
Qed.

(** X11: For a non-negative [k] a search returns [min(k, n)] results, where
    [n] counts the non-empty approach entries with a paired code entry
    in the fetched bundles: never more than [k], and all candidates
    when there are fewer. *)
Theorem search_returns_min_k_candidates
    query_text code_analysis scope k s questions_data results s' :
  0 ≤ k →
  session_run scope = inr questions_data →
  find_similar_approaches query_text code_analysis scope k s = (inr results, s') →
  length results
  = Nat.min (Z.to_nat k) (length (flat_map present_entries questions_data)).
Proof.
  intros Hk Hrun
    [(Hnil & -> & _)|(b & bs & d & qv & Hrun' & Hbuild & Hqv & -> & _)]
    %search_returned.
  { rewrite Hnil in Hrun. injection Hrun as <-. simpl. lia. }
  rewrite Hrun' in Hrun. injection Hrun as <-.
  apply returned_records_embedded in Hbuild as [Hfin _].
  rewrite (Forall2_length _ _ _ Hfin).
  rewrite length_map, length_slice_to_nonneg by done.
  rewrite length_sort, score_records_filter, length_map. f_equal.
  generalize (approach_embeddings d). clear.
  intros l. induction l as [|r l IH]; simpl; [done|].
  by rewrite IH.
Qed.

(** X12: A search that fetched bundles and returns has called the encoder
    once for each approach entry, in loop order, and then once for the
    query: the query is always the last text encoded. *)
Theorem search_encodes_candidates_then_query
    query_text code_analysis scope k s b bs results s' :
  session_run scope = inr (b :: bs) →
  find_similar_approaches query_text code_analysis scope k s = (inr results, s') →
  encode_log s'
  = encode_log s
    ++ map entry_text (flat_map present_entries (b :: bs)) ++ [query_text]
  ∧ length (approach_embeddings s')
    = length (flat_map present_entries (b :: bs)).
Proof.
  intros Hrun
    [(Hnil & _)|(b' & bs' & d & qv & Hrun' & Hbuild & _ & _ & Hrec & Hlog)]
    %search_returned; [congruence|].
  rewrite Hrun' in Hrun. injection Hrun as <- <-.
  apply returned_records_embedded in Hbuild as [Hfin Hcalls].
  rewrite Hlog, Hcalls, Hrec. split; [done|].
  symmetry. by eapply Forall2_length.
Qed.

(** X13: Bundles without a single usable approach entry are not the
    no-questions case: nothing is printed, the query is still encoded,
    and the search returns the empty list (or raises what encoding the
    query raises). *)
Theorem search_over_bundles_without_approaches
    query_text code_analysis scope k s b bs :
  session_run scope = inr (b :: bs) →
  flat_map present_entries (b :: bs) = [] →
  find_similar_approaches query_text code_analysis scope k s
  = (match encode query_text with
     | inl x => inl x
     | inr _ => inr []
     end,
     {| approach_embeddings := [];
        encode_log := encode_log s ++ [query_text];
        run_log := run_log s ++ [scope];
        stdout := stdout s |}).
Proof.
  intros Hrun Hnone.
  destruct (runs_bundles encode (b :: bs))
    as [_ ((finished & rest & Hsplit & Hfin & _) & Hok & _ & Hrunlog & Hout)].
  destruct (calls_outcome_bundles encode (b :: bs)) as (Hpre & _).
  rewrite Hnone in *. specialize (Hok (List.Forall_nil _)).
  symmetry in Hsplit. apply app_eq_nil in Hsplit as [-> _].
  apply Forall2_nil_inv_l in Hfin. apply prefix_nil_inv in Hpre.
  unfold find_similar_approaches, _fetch_questions_by_subtopics,
    print_no_questions, model_encode, gets, ret, bind.
  simpl. rewrite Hrun. simpl. rewrite create_weighted_embeddings_fresh.
  destruct (for_each embed_bundle (b :: bs) init) as [res d].
  simpl in *. subst res. rewrite Hfin, Hpre, app_nil_r.
  by destruct (encode query_text).
Qed.

Section Ordered.

Hypothesis rlt_asym : ∀ a b, rltb a b = true → rltb b a = false.
Hypothesis rlt_negtrans :
  ∀ a b c, rltb a b = false → rltb b c = false → rltb a c = false.


End Ordered.

End FacadeResults.

(** * The pipeline *)

Section PipelineTheory.

Context {R : Type} {dim : nat}.
Variable rzero : R.
Variables radd rmul : R → R → R.
Variable rltb : R → R → bool.
Variable session_run : list string → exn + list question_bundle.
Variable encode : string → exn + vec R dim.
Variable open_search : string + unit.

Local Arguments find_similar_approaches : simpl never.
Local Arguments process_approaches : simpl nomatch.
Local Opaque tags.

Local Abbreviation result := (@ranked_result R).
Local Abbreviation init := (@init_state R dim).
Local Abbreviation find_similar_approaches :=
  (find_similar_approaches rzero radd rmul rltb session_run encode).
Local Abbreviation solve_with kickoff :=
  (solve_competitive_programming_problem rzero radd rmul rltb session_run
     encode kickoff open_search).

Implicit Types (w : run) (approaches : list result) (i : Z).

Ltac enter_loop :=
  unfold pbind, print, create_planner, coder_agent, crew_kickoff; simpl.

Section OneService.

Variable kickoff : agent_call → string + string.

Local Abbreviation process_approaches := (process_approaches kickoff).
Local Abbreviation solved_from := (solved_from kickoff).
Local Abbreviation solve := (solve_with kickoff).

(** *** The loop over the retrieved approaches *)

Lemma process_returned problem analysis_result approaches :
  ∀ i results w out w',
    process_approaches problem analysis_result i approaches results w
    = (inr out, w') →
    ∃ solutions,
      out = results ++ solutions
      ∧ Forall2 (solved_from problem analysis_result) approaches solutions
      ∧ map approach_index solutions
        = seqZ (i + 1) (Z.of_nat (length approaches))
      ∧ w' = after_crews w
               (loop_crews problem analysis_result approaches solutions)
               (flat_map lines_of (seqZ (i + 1) (Z.of_nat (length approaches)))).
Proof.
  induction approaches as [|r approaches IH]; intros i results w out w'.
  - intros [= <- <-]. exists []. rewrite app_nil_r.
    split_and!; [done|constructor|done|].
    destruct w. unfold after_crews. simpl. by rewrite !app_nil_r.
  - simpl. enter_loop.
    destruct (kickoff (Plan (r_approach_node r) problem analysis_result))
      as [msg|plan] eqn:Hplan; [done|].
    destruct (kickoff (Code problem plan)) as [msg|final] eqn:Hcode; [done|].
    intros (solutions & -> & Hall & Hidx & ->)%IH.
    eexists (_ :: solutions).
    rewrite seqZ_cons by lia.
    replace (Z.pred (Z.of_nat (S (length approaches))))
      with (Z.of_nat (length approaches)) by lia.
    split_and!.
    + by rewrite <- app_assoc.
    + constructor; [|done]. by split_and!.
    + simpl. by rewrite Hidx.
    + unfold after_crews. simpl. by rewrite <- !app_assoc.
Qed.

(** Only a crew can end the loop early, and then its call is the last
    one logged. *)
Lemma process_raised problem analysis_result approaches :
  ∀ i results w x w',
    process_approaches problem analysis_result i approaches results w
    = (inl x, w') →
    ∃ calls call msg,
      x = AgentFailure msg ∧ kickoff call = inl msg
      ∧ crew_log w' = crew_log w ++ calls ++ [call]
      ∧ encoded w' = encoded w ∧ queried w' = queried w.
Proof.
  induction approaches as [|r approaches IH]; intros i results w x w'; [done|].
  simpl. enter_loop.
  destruct (kickoff (Plan (r_approach_node r) problem analysis_result))
    as [msg|plan] eqn:Hplan.
  { intros [= <- <-]. by exists [], (Plan (r_approach_node r) problem analysis_result), msg. }
  destruct (kickoff (Code problem plan)) as [msg|final] eqn:Hcode.
  { intros [= <- <-]. simpl.
    exists [Plan (r_approach_node r) problem analysis_result], (Code problem plan), msg.
    split_and!; try done. by rewrite <- app_assoc. }
  intros (calls & call & msg & -> & Hcall & Hlog & Henc & Hq)%IH. simpl in *.
  exists (Plan (r_approach_node r) problem analysis_result
          :: Code problem plan :: calls), call, msg.
  split_and!; try done. rewrite Hlog. by rewrite <- !app_assoc.
Qed.

(** X15: The loop never looks at the code node, the question id or the
    score of a retrieved approach: two lists with the same approach
    nodes are processed alike, down to every crew call and line. *)
Theorem loop_reads_only_the_approach_nodes
    problem analysis_result approaches1 approaches2 :
  map r_approach_node approaches1 = map r_approach_node approaches2 →
  ∀ i results w,
    process_approaches problem analysis_result i approaches1 results w
    = process_approaches problem analysis_result i approaches2 results w.
Proof.
  revert approaches2.
  induction approaches1 as [|r1 approaches1 IH];
    intros [|r2 approaches2] [=]; [done|].
  intros i results w. simpl. enter_loop.
  match goal with H : r_approach_node r1 = _ |- _ => rewrite H end.
  destruct (kickoff (Plan (r_approach_node r2) problem analysis_result))
    as [msg|plan]; [done|].
  destruct (kickoff (Code problem plan)); [done|].
  by apply IH.
Qed.

(** *** The whole run *)

Ltac enter_solve :=
  unfold solve_competitive_programming_problem, analyzer_agent,
    designer_agent, new_search, call_method, pbind, print, crew_kickoff;
  simpl.

Lemma solve_returned problem w results w' :
  solve problem w = (inr results, w') →
  ∃ analysis_result tests similar self',
    kickoff (Analyze problem) = inr analysis_result
    ∧ kickoff (Design problem analysis_result) = inr tests
    ∧ find_similar_approaches problem analysis_result tags 5 init
      = (inr similar, self')
    ∧ process_approaches problem analysis_result 0 (slice_to similar 5) []
        {| crew_log :=
             crew_log w ++ [Analyze problem; Design problem analysis_result];
           console :=
             console w ++ [analysis_completed; tags_generated]
             ++ map no_questions_found (stdout self')
             ++ [approaches_retrieved];
           encoded := encoded w ++ encode_log self';
           queried := queried w ++ run_log self' |}
      = (inr results, w').
Proof.
  enter_solve.
  destruct (kickoff (Analyze problem)) as [msg|analysis_result] eqn:Ha; [done|].
  destruct (kickoff (Design problem analysis_result)) as [msg|tests] eqn:Ht;
    [done|].
  destruct open_search as [msg|u]; [done|].
  destruct (find_similar_approaches problem analysis_result tags 5 init)
    as [[x|similar] self'] eqn:Hfind; simpl; [done|].
  rewrite !drop_0. intros Hloop.
  exists analysis_result, tests, similar, self'.
  split_and!; try done.
  rewrite <- !app_assoc in Hloop. exact Hloop.
Qed.

Lemma search_logs_one_query query_text code_analysis scope k s :
  run_log (find_similar_approaches query_text code_analysis scope k s).2
  = run_log s ++ [scope].
Proof.
  unfold find_similar_approaches, _fetch_questions_by_subtopics,
    print_no_questions, model_encode, gets, ret, bind.
  simpl.
  destruct (session_run scope) as [x|[|b bs]]; simpl; [done..|].
  rewrite create_weighted_embeddings_fresh.
  destruct (for_each (embed_bundle encode) (b :: bs) init).1 as [x|[]];
    simpl; [done|].
  by destruct (encode query_text).
Qed.

(** X16: The solutions a run returns are, in rank order, one for each
    approach the search retrieved for the problem over the fixed tags
    with [k = 5]: each planned from that approach's node and coded from
    that plan, all carrying the one analysis, numbered from 1, and never
    more than five. *)
Theorem solutions_follow_the_retrieved_approaches problem w results w' :
  solve problem w = (inr results, w') →
  ∃ analysis_result similar self',
    kickoff (Analyze problem) = inr analysis_result
    ∧ find_similar_approaches problem analysis_result tags 5 init
      = (inr similar, self')
    ∧ Forall2 (solved_from problem analysis_result) similar results
    ∧ map approach_index results = seqZ 1 (Z.of_nat (length results))
    ∧ (length results ≤ 5)%nat.
Proof.
  intros (analysis_result & tests & similar & self' & Ha & _ & Hfind & Hloop)
    %solve_returned.
  assert (Hfive : (length similar ≤ Z.to_nat 5)%nat)
    by (eapply search_returned_at_most_k; [|exact Hfind]; lia).
  change (Z.to_nat 5) with 5%nat in Hfive.
  rewrite slice_to_all in Hloop by lia.
  apply process_returned in Hloop as (solutions & -> & Hall & Hidx & _).
  exists analysis_result, similar, self'. simpl.
  rewrite <- (Forall2_length _ _ _ Hall).
  split_and!; try done; lia.
Qed.

(** X17: What a run that returns has sent out, in order: the analyst and
    the designer, then for each retrieved approach, best first, its
    planner and then its coder; the graph was queried once, with the
    fixed tags, and the encoder calls are those of that one search. *)
Theorem pipeline_runs_crews_in_rank_order problem w results w' :
  solve problem w = (inr results, w') →
  ∃ analysis_result similar self',
    find_similar_approaches problem analysis_result tags 5 init
    = (inr similar, self')
    ∧ crew_log w'
      = crew_log w
        ++ [Analyze problem; Design problem analysis_result]
        ++ loop_crews problem analysis_result similar results
    ∧ console w'
      = console w
        ++ [analysis_completed; tags_generated]
        ++ map no_questions_found (stdout self')
        ++ [approaches_retrieved]
        ++ flat_map lines_of (seqZ 1 (Z.of_nat (length results)))
    ∧ encoded w' = encoded w ++ encode_log self'
    ∧ queried w' = queried w ++ [tags].
Proof.
  intros (analysis_result & tests & similar & self' & Ha & _ & Hfind & Hloop)
    %solve_returned.
  assert (Hfive : (length similar ≤ Z.to_nat 5)%nat)
    by (eapply search_returned_at_most_k; [|exact Hfind]; lia).
  change (Z.to_nat 5) with 5%nat in Hfive.
  pose proof (search_logs_one_query problem analysis_result tags 5 init)
    as Hrun.
  rewrite Hfind in Hrun. simpl in Hrun.
  rewrite slice_to_all in Hloop by lia.
  apply process_returned in Hloop as (solutions & -> & Hall & Hidx & ->).
  exists analysis_result, similar, self'. simpl.
  rewrite <- (Forall2_length _ _ _ Hall), Hrun.
  split_and!; try done.
  - by rewrite <- app_assoc.
  - rewrite <- app_assoc. simpl. by rewrite <- app_assoc.
Qed.

(** X18: Whatever a run raises is what its last step raised: a crew whose
    call is the last one logged; the constructor of the search, before
    anything was queried or encoded; or the search, whose exception
    comes out as it is, after the analyst and the designer and before
    any planner or coder. *)
Theorem pipeline_raises_what_its_step_raised problem w x w' :
  solve problem w = (inl x, w') →
  match x with
  | AgentFailure msg =>
      ∃ calls call,
        kickoff call = inl msg ∧ crew_log w' = crew_log w ++ calls ++ [call]
  | SetupFailure msg =>
      open_search = inl msg ∧ encoded w' = encoded w ∧ queried w' = queried w
  | SearchFailure e =>
      ∃ analysis_result self',
        kickoff (Analyze problem) = inr analysis_result
        ∧ find_similar_approaches problem analysis_result tags 5 init
          = (inl e, self')
        ∧ crew_log w'
          = crew_log w ++ [Analyze problem; Design problem analysis_result]
  end.
Proof.
  enter_solve.
  destruct (kickoff (Analyze problem)) as [msg|analysis_result] eqn:Ha.
  { intros [= <- <-]. by exists [], (Analyze problem). }
  destruct (kickoff (Design problem analysis_result)) as [msg|tests] eqn:Ht.
  { intros [= <- <-]. simpl.
    exists [Analyze problem], (Design problem analysis_result).
    split; [done|]. by rewrite <- app_assoc. }
  destruct open_search as [msg|u] eqn:Hopen.
  { by intros [= <- <-]. }
  destruct (find_similar_approaches problem analysis_result tags 5 init)
    as [[e|similar] self'] eqn:Hfind; simpl.
  { intros [= <- <-]. simpl. exists analysis_result, self'.
    split_and!; try done. by rewrite <- app_assoc. }
  intros (calls & call & msg & -> & Hcall & Hlog & _)%process_raised.
  simpl in Hlog.
  exists (Analyze problem :: Design problem analysis_result :: calls), call.
  split; [done|]. rewrite Hlog. by rewrite <- !app_assoc.
Qed.

End OneService.

(** X19: The text the designer returns is dropped: two services that differ
    only in what their designer says, not in whether it raises, lead to
    the same solutions and the same calls to the graph, the encoder
    and the other crews. *)
Theorem designer_output_is_never_used kickoff1 kickoff2 problem w :
  (∀ call, is_design call = false → kickoff1 call = kickoff2 call) →
  (∀ call, is_design call = true → same_outcome (kickoff1 call) (kickoff2 call)) →
  solve_with kickoff1 problem w = solve_with kickoff2 problem w.
Proof.
  intros Hsame Hdesign.
  assert (Hloop : ∀ analysis_result approaches i results w0,
             process_approaches kickoff1 problem analysis_result i approaches
               results w0
             = process_approaches kickoff2 problem analysis_result i approaches
                 results w0).
  { intros analysis_result approaches.
    induction approaches as [|r approaches IH]; intros i results w0; [done|].
    simpl. enter_loop. rewrite (Hsame (Plan _ _ _)) by done.
    destruct (kickoff2 (Plan (r_approach_node r) problem analysis_result))
      as [msg|plan]; [done|].
    rewrite (Hsame (Code _ _)) by done.
    destruct (kickoff2 (Code problem plan)); [done|]. apply IH. }
  unfold solve_competitive_programming_problem, analyzer_agent,
    designer_agent, new_search, call_method, pbind, print, crew_kickoff.
  simpl. rewrite (Hsame (Analyze problem)) by done.
  destruct (kickoff2 (Analyze problem)) as [msg|analysis_result]; [done|].
  specialize (Hdesign (Design problem analysis_result) eq_refl).
  unfold same_outcome in Hdesign.
  destruct (kickoff1 (Design problem analysis_result)),
    (kickoff2 (Design problem analysis_result)); try done; [by subst|].
  destruct open_search; [done|].
  destruct (find_similar_approaches problem analysis_result tags 5 init).1;
    [done|].
  apply Hloop.
Qed.

End PipelineTheory.

(** * The further theorems at work on the concrete worlds *)

Lemma ranker_smaller_k_is_a_prefix_witness :
  0 ≤ 1 ∧ 1 ≤ 3
  ∧ Scenario.rank (Scenario.holding Scenario.three) [# 1; 0] 1 None
    `prefix_of` Scenario.rank (Scenario.holding Scenario.three) [# 1; 0] 3 None.
Proof.
  split; [lia|]. split; [lia|].
  apply (ranker_smaller_k_is_a_prefix 0 Z.add Z.mul Z.ltb
           (Scenario.holding Scenario.three) [# 1; 0] 1 3 None); lia.
Defined.


Lemma failed_build_stops_at_first_failure_witness :
  Scenario.build [Scenario.broken] "" Scenario.start
  = (inl (EmbeddingFailure "encoder down"),
     {| approach_embeddings := []; encode_log := ["<fail>"];
        run_log := []; stdout := [] |})
  ∧ ∃ finished next rest,
      flat_map present_entries [Scenario.broken] = finished ++ next :: rest
      ∧ entry_raises Scenario.encode next (EmbeddingFailure "encoder down").
Proof.
  assert (Hrun : Scenario.build [Scenario.broken] "" Scenario.start
                 = (inl (EmbeddingFailure "encoder down"),
                    {| approach_embeddings := []; encode_log := ["<fail>"];
                       run_log := []; stdout := [] |}))
    by (vm_compute; reflexivity).
  split; [exact Hrun|].
  destruct (failed_build_stops_at_first_failure Scenario.encode
              [Scenario.broken] "" Scenario.start _ _ Hrun)
    as (finished & next & rest & Hsplit & _ & Hraises & _).
  by exists finished, next, rest.
Defined.

Lemma approach_text_of_empty_description_witness :
  Scenario.blank_description !! "description" = Some ""
  ∧ approach_text Scenario.blank_description (Some Scenario.prefix_code)
    = inr "sum=...".
Proof.
  assert (Ha : Scenario.blank_description !! "description" = Some "")
    by (vm_compute; reflexivity).
  split; [exact Ha|].
  apply (approach_text_of_empty_description
           Scenario.blank_description (Some Scenario.prefix_code) Ha).
  intros c [= <-] _. exists "sum=...". vm_compute. reflexivity.
Defined.

Lemma search_prefix_sums :
  Scenario.search "prefix sums" "" ["Array"] 1 Scenario.start
  = (inr Scenario.best,
     (Scenario.search "prefix sums" "" ["Array"] 1 Scenario.start).2).
Proof. vm_compute. reflexivity. Qed.

Lemma search_results_come_from_the_scope_witness :
  Scenario.search "prefix sums" "" ["Array"] 1 Scenario.start
  = (inr Scenario.best,
     (Scenario.search "prefix sums" "" ["Array"] 1 Scenario.start).2)
  ∧ ∃ questions_data,
      Scenario.session_run ["Array"] = inr questions_data
      ∧ Forall (result_of 0 Z.add Z.mul Scenario.encode questions_data
                  "prefix sums")
          Scenario.best.
Proof.
  split; [exact search_prefix_sums|].
  exact (search_results_come_from_the_scope 0 Z.add Z.mul Z.ltb
           Scenario.session_run Scenario.encode _ _ _ _ _ _ _
           search_prefix_sums).
Defined.

Lemma search_returns_min_k_candidates_witness :
  0 ≤ 1
  ∧ Scenario.session_run ["Array"] = inr [Scenario.scenario_a]
  ∧ Scenario.search "prefix sums" "" ["Array"] 1 Scenario.start
    = (inr Scenario.best,
       (Scenario.search "prefix sums" "" ["Array"] 1 Scenario.start).2)
  ∧ length Scenario.best
    = Nat.min (Z.to_nat 1)
        (length (flat_map present_entries [Scenario.scenario_a])).
Proof.
  split; [lia|]. split; [vm_compute; reflexivity|].
  split; [exact search_prefix_sums|].
  apply (search_returns_min_k_candidates 0 Z.add Z.mul Z.ltb
           Scenario.session_run Scenario.encode
           "prefix sums" "" ["Array"] 1 Scenario.start
           [Scenario.scenario_a] Scenario.best
           (Scenario.search "prefix sums" "" ["Array"] 1 Scenario.start).2);
    [lia|vm_compute; reflexivity|exact search_prefix_sums].
Defined.

Lemma search_encodes_candidates_then_query_witness :
  Scenario.session_run ["Array"] = inr [Scenario.scenario_a]
  ∧ Scenario.search "prefix sums" "" ["Array"] 1 Scenario.start
    = (inr Scenario.best,
       (Scenario.search "prefix sums" "" ["Array"] 1 Scenario.start).2)
  ∧ encode_log (Scenario.search "prefix sums" "" ["Array"] 1 Scenario.start).2
    = encode_log Scenario.start
      ++ map entry_text (flat_map present_entries [Scenario.scenario_a])
      ++ ["prefix sums"].
Proof.
  split; [vm_compute; reflexivity|]. split; [exact search_prefix_sums|].
  destruct (search_encodes_candidates_then_query 0 Z.add Z.mul Z.ltb
              Scenario.session_run Scenario.encode
              "prefix sums" "" ["Array"] 1 Scenario.start
              Scenario.scenario_a [] Scenario.best
              (Scenario.search "prefix sums" "" ["Array"] 1 Scenario.start).2)
    as [Hlog _]; [vm_compute; reflexivity|exact search_prefix_sums|].
  exact Hlog.
Defined.

Lemma search_over_bundles_without_approaches_witness :
  Scenario.session_run ["Graphs"] = inr [Scenario.unpaired]
  ∧ flat_map present_entries [Scenario.unpaired] = []
  ∧ Scenario.search "two pointers" "" ["Graphs"] 5 Scenario.start
    = (inr [],
       {| approach_embeddings := []; encode_log := ["two pointers"];
          run_log := [["Graphs"]]; stdout := [] |}).
Proof.
  split; [vm_compute; reflexivity|]. split; [reflexivity|].
  apply (search_over_bundles_without_approaches 0 Z.add Z.mul Z.ltb
           Scenario.session_run Scenario.encode
           "two pointers" "" ["Graphs"] 5 Scenario.start Scenario.unpaired []);
    [vm_compute; reflexivity|reflexivity].
Defined.



Lemma loop_reads_only_the_approach_nodes_witness :
  map r_approach_node [Studio.retrieved None 7]
  = map r_approach_node [Studio.retrieved (Some Scenario.prefix_code) 0]
  ∧ process_approaches Studio.kickoff "two sum" "analysis" 0
      [Studio.retrieved None 7] [] Studio.blank_run
    = process_approaches Studio.kickoff "two sum" "analysis" 0
        [Studio.retrieved (Some Scenario.prefix_code) 0] [] Studio.blank_run.
Proof.
  split; [reflexivity|].
  apply (loop_reads_only_the_approach_nodes Studio.kickoff
           "two sum" "analysis"
           [Studio.retrieved None 7]
           [Studio.retrieved (Some Scenario.prefix_code) 0]).
  reflexivity.
Defined.

Lemma solve_two_sum :
  Studio.solve "two sum" Studio.blank_run
  = (inr Studio.two_solutions, (Studio.solve "two sum" Studio.blank_run).2).
Proof. vm_compute. reflexivity. Qed.

Lemma solutions_follow_the_retrieved_approaches_witness :
  Studio.solve "two sum" Studio.blank_run
  = (inr Studio.two_solutions, (Studio.solve "two sum" Studio.blank_run).2)
  ∧ map approach_index Studio.two_solutions = seqZ 1 2.
Proof.
  split; [exact solve_two_sum|].
  destruct (solutions_follow_the_retrieved_approaches 0 Z.add Z.mul Z.ltb
              Studio.session_run Scenario.encode (inr tt) Studio.kickoff
              "two sum" Studio.blank_run Studio.two_solutions _ solve_two_sum)
    as (analysis_result & similar & self' & _ & _ & _ & Hidx & _).
  exact Hidx.
Defined.

Lemma pipeline_runs_crews_in_rank_order_witness :
  Studio.solve "two sum" Studio.blank_run
  = (inr Studio.two_solutions, (Studio.solve "two sum" Studio.blank_run).2)
  ∧ queried (Studio.solve "two sum" Studio.blank_run).2
    = queried Studio.blank_run ++ [tags].
Proof.
  split; [exact solve_two_sum|].
  destruct (pipeline_runs_crews_in_rank_order 0 Z.add Z.mul Z.ltb
              Studio.session_run Scenario.encode (inr tt) Studio.kickoff
              "two sum" Studio.blank_run Studio.two_solutions _ solve_two_sum)
    as (analysis_result & similar & self' & _ & _ & _ & _ & Hq).
  exact Hq.
Defined.

Lemma solve_without_plans :
  Studio.solve_no_plans "two sum" Studio.blank_run
  = (inl (AgentFailure "planner timed out"),
     (Studio.solve_no_plans "two sum" Studio.blank_run).2).
Proof. vm_compute. reflexivity. Qed.

Lemma pipeline_raises_what_its_step_raised_witness :
  Studio.solve_no_plans "two sum" Studio.blank_run
  = (inl (AgentFailure "planner timed out"),
     (Studio.solve_no_plans "two sum" Studio.blank_run).2)
  ∧ ∃ calls call,
      Studio.kickoff_no_plans call = inl "planner timed out"
      ∧ crew_log (Studio.solve_no_plans "two sum" Studio.blank_run).2
        = crew_log Studio.blank_run ++ calls ++ [call].
Proof.
  split; [exact solve_without_plans|].
  exact (pipeline_raises_what_its_step_raised 0 Z.add Z.mul Z.ltb
           Studio.session_run Scenario.encode (inr tt) Studio.kickoff_no_plans
           "two sum" Studio.blank_run _ _ solve_without_plans).
Defined.

Lemma studio_services_agree call :
  is_design call = false → Studio.kickoff call = Studio.kickoff_other call.
Proof. by destruct call. Qed.

Lemma studio_designers_both_return call :
  is_design call = true →
  same_outcome (Studio.kickoff call) (Studio.kickoff_other call).
Proof. by destruct call. Qed.

Lemma designer_output_is_never_used_witness :
  (∀ call, is_design call = false →
           Studio.kickoff call = Studio.kickoff_other call)
  ∧ (∀ call, is_design call = true →
             same_outcome (Studio.kickoff call) (Studio.kickoff_other call))
  ∧ Studio.solve "two sum" Studio.blank_run
    = Studio.solve_other "two sum" Studio.blank_run.
Proof.
  split; [exact studio_services_agree|].
  split; [exact studio_designers_both_return|].
  exact (designer_output_is_never_used 0 Z.add Z.mul Z.ltb
           Studio.session_run Scenario.encode (inr tt)
           Studio.kickoff Studio.kickoff_other "two sum" Studio.blank_run
           studio_services_agree studio_designers_both_return).
Defined.
